(** * LM Studio embeddings node: a shallow embedding and its properties

    The development follows [src/nodes/LMStudioEmbeddings.node.ts] (the
    node that supplies an embedding provider), the model-list loader of
    the same file and of its older variant, and the credential descriptor
    [src/credentials/LMStudioApi.credentials.ts].  Console output is not
    modelled.

    JavaScript values are kept as the code has them: a document is a
    string or [null]/[undefined], a thrown value is an [Error] with a
    message or something else, an embedding is an array of numbers (or
    the base64 string the server echoes back).  The two things the file
    does not contain, the network behind [fetch] and the
    [OpenAIEmbeddings] class of the client library, are parameters of the
    model: every theorem quantifies over them. *)

From Stdlib Require Import String Ascii ZArith Lia Bool Arith List.
From Stdlib Require Import Floats.PrimFloat DecimalString.
Import ListNotations.

Local Open Scope string_scope.
Local Open Scope nat_scope.
Local Open Scope list_scope.

Set Implicit Arguments.

(* ================================================================= *)
(** ** JavaScript strings, arrays and thrown values *)

Module JS.

(** Code units are kept in the Latin-1 range of [ascii]; the white
    space and line terminators of ECMAScript that fall in that range
    are TAB, LF, VT, FF, CR, SP and NBSP. *)
Definition isWhiteSpace (c : ascii) : bool :=
  let n := nat_of_ascii c in
  ((9 <=? n) && (n <=? 13)) || (n =? 32) || (n =? 160).

Fixpoint trimStart (s : string) : string :=
  match s with
  | EmptyString => EmptyString
  | String c r => if isWhiteSpace c then trimStart r else s
  end.

Fixpoint trimEnd (s : string) : string :=
  match s with
  | EmptyString => EmptyString
  | String c r =>
      match trimEnd r with
      | EmptyString => if isWhiteSpace c then EmptyString else String c EmptyString
      | r' => String c r'
      end
  end.

(** [String.prototype.trim] *)
Definition trim (s : string) : string := trimEnd (trimStart s).

(** Truthiness of a string: only the empty string is falsy. *)
Definition truthy (s : string) : bool :=
  match s with EmptyString => false | String _ _ => true end.

(** [s.replace(/\\/g, '/')] *)
Fixpoint replaceBackslashes (s : string) : string :=
  match s with
  | EmptyString => EmptyString
  | String c r =>
      String (if Ascii.eqb c "\"%char then "/"%char else c) (replaceBackslashes r)
  end.

(** [Array.prototype.slice(start, end)] on integer arguments: a
    negative index counts from the end, both are clamped to the array. *)
Definition clampIndex (len k : Z) : Z :=
  if (k <? 0)%Z then Z.max (len + k) 0 else Z.min k len.

Definition slice {A : Type} (l : list A) (start stop : Z) : list A :=
  let len := Z.of_nat (length l) in
  let k := clampIndex len start in
  let final := clampIndex len stop in
  firstn (Z.to_nat (final - k)) (skipn (Z.to_nat k) l).

(** What a [throw] carries: an [Error] object with its message, or any
    other value (one that prints in a template literal, as the values a
    client library rejects with do). *)
Inductive thrown : Type :=
| Error (message : string)
| NonError.

(** [error instanceof Error ? error.message : 'Unknown error'] *)
Definition messageOf (e : thrown) : string :=
  match e with
  | Error m => m
  | NonError => "Unknown error"
  end.

(** Template-literal rendering of an integer. *)
Definition numberToString (z : Z) : string :=
  NilZero.string_of_int (Z.to_int z).

End JS.

(** How a call ends: with a value, with a thrown value, or not at all
    (the fuel of a loop ran out). *)
Inductive Outcome (A : Type) : Type :=
| Returned (a : A)
| Raised (e : JS.thrown)
| Diverged.

Arguments Returned {A} a.
Arguments Raised {A} e.
Arguments Diverged {A}.

(* ================================================================= *)
(** ** Data model *)

(** A document handed to the provider: a string, or [None] for [null]
    and [undefined]. *)
Definition Document : Type := option string.

(** [doc && doc.trim()], read as a condition. *)
Definition nonBlank (doc : Document) : bool :=
  match doc with
  | None => false
  | Some s => JS.truthy s && JS.truthy (JS.trim s)
  end.

(** The [embedding] field of a response element: numbers for the
    [float] format, the packed string for [base64]; the code passes it
    through unread. *)
Inductive Embedding : Type :=
| Vector (v : list float)
| Base64 (s : string).

(** The literal [[]] pushed for blank and failed documents. *)
Definition emptyEmbedding : Embedding := Vector [].

Record EmbeddingItem : Type := {
  index : Z;
  embedding : Embedding
}.

Inductive EncodingFormat : Type := Float | Base64Format.

Inductive Input : Type :=
| Single (s : string)
| Many (l : list string).

(** The argument of [embeddingWithRetry]. *)
Module Request.
Record t : Type := {
  model : string;
  input : Input;
  encoding_format : EncodingFormat
}.
End Request.

Definition EmbeddingRequest : Type := Request.t.

(** What awaiting [embeddingWithRetry] gives: an object with a [data]
    array, or a rejection.  (An object without [data] behaves as one
    with an empty [data]: reading an element of either throws.) *)
Inductive Response : Type :=
| Resolved (data : list EmbeddingItem)
| Rejected (e : JS.thrown).

(** The decrypted credential: the API key may be absent or empty. *)
Module Credentials.
Record t : Type := {
  baseUrl : string;
  apiKey : option string
}.
End Credentials.

(** The options object of [new OpenAIEmbeddings(...)]. *)
Record ClientFields : Type := {
  baseURL : string;
  clientApiKey : option string;
  clientModel : string
}.

(** The client library, absent from the repository: whether the
    constructor throws on the given fields, and how the [n]-th call of
    [embeddingWithRetry] of a run answers a request.  One call stands for
    one embeddings request of this layer; the retries the library may
    perform inside a call are its own. *)
Record OpenAIEmbeddings : Type := {
  construct : ClientFields -> option JS.thrown;
  embeddingWithRetry : nat -> EmbeddingRequest -> Response
}.

(** [fetch]: the request options, and the part of a response that the
    code reads. *)
Record RequestInit : Type := {
  method : string;
  headers : list (string * string)
}.

Record ModelEntry : Type := { id : string }.

(** The parsed body: [{ data?: Array<{ id: string }> }]. *)
Record ModelsBody : Type := { data : option (list ModelEntry) }.

Record FetchResponse : Type := {
  ok : bool;
  status : Z;
  statusText : string;
  json : JS.thrown + ModelsBody
}.

Inductive FetchResult : Type :=
| Fulfilled (r : FetchResponse)
| Failed (e : JS.thrown).

(** The network behind [fetch], a parameter as well. *)
Definition Network : Type := string -> RequestInit -> FetchResult.

(** The observable effects of a run: the [fetch] calls issued and the
    embeddings requests issued with their answers, oldest first. *)
Record World : Type := {
  fetched : list (string * RequestInit);
  called : list (EmbeddingRequest * Response)
}.

Definition emptyWorld : World := {| fetched := []; called := [] |}.

Definition doFetch (net : Network) (url : string) (init : RequestInit)
    (w : World) : FetchResult * World :=
  (net url init,
   {| fetched := fetched w ++ [(url, init)]; called := called w |}).

Definition doEmbeddingWithRetry (client : OpenAIEmbeddings)
    (req : EmbeddingRequest) (w : World) : Response * World :=
  let r := embeddingWithRetry client (length (called w)) req in
  (r, {| fetched := fetched w; called := called w ++ [(req, r)] |}).

(* ================================================================= *)
(** ** The model-list loader and the connectivity check *)

(** [...(credentials.apiKey && { Authorization: `Bearer ${credentials.apiKey}` })]:
    spreading a falsy key adds nothing. *)
Definition spreadAuthorization (credentials : Credentials.t) : list (string * string) :=
  match Credentials.apiKey credentials with
  | Some key =>
      if JS.truthy key then [("Authorization", ("Bearer " ++ key)%string)] else []
  | None => []
  end.

Definition getInit (credentials : Credentials.t) : RequestInit :=
  {| method := "GET";
     headers := ("Content-Type", "application/json") :: spreadAuthorization credentials |}.

(** An entry of the drop-down the host fills. *)
Record INodePropertyOptions : Type := {
  name : string;
  value : string
}.

Definition modelOption (m : ModelEntry) : INodePropertyOptions :=
  {| name := id m; value := id m |}.

(** [`${response.status} ${response.statusText}`] *)
Definition statusLine (r : FetchResponse) : string :=
  (JS.numberToString (status r) ++ " " ++ statusText r)%string.

(** The body of [getModels] once the URL is known: everything thrown
    inside the [try] is wrapped by the [catch]. *)
Definition loadModels (net : Network) (modelsUrl : string)
    (credentials : Credentials.t) (w : World)
  : Outcome (list INodePropertyOptions) * World :=
  let wrap e :=
    Raised (JS.Error ("Error fetching models from LM Studio: " ++ JS.messageOf e)%string) in
  let (response, w1) := doFetch net modelsUrl (getInit credentials) w in
  match response with
  | Failed e => (wrap e, w1)
  | Fulfilled response =>
      if negb (ok response) then
        (wrap (JS.Error ("Failed to fetch models: " ++ statusLine response)%string), w1)
      else
        match json response with
        | inl e => (wrap e, w1)
        | inr result =>
            let models := match data result with Some d => d | None => [] end in
            (Returned (map modelOption models), w1)
        end
  end.

(** [getModels] of [LMStudioEmbeddings.node.ts] (lines 82-112):
    backslashes of the base URL are turned into slashes first. *)
Definition getModels (net : Network) (credentials : Credentials.t) (w : World)
  : Outcome (list INodePropertyOptions) * World :=
  let baseUrl := JS.replaceBackslashes (Credentials.baseUrl credentials) in
  let modelsUrl := (baseUrl ++ "/models")%string in
  loadModels net modelsUrl credentials w.

(** [getModels] of the older variant of the node, which uses the base
    URL as it is. *)
Module Plain.
Definition getModels (net : Network) (credentials : Credentials.t) (w : World)
  : Outcome (list INodePropertyOptions) * World :=
  loadModels net (Credentials.baseUrl credentials ++ "/models")%string credentials w.
End Plain.

(** The connectivity check at the head of [supplyData] (lines 125-140):
    [None] when the models path answered with a success status, the
    error to raise otherwise. *)
Definition testConnection (net : Network) (baseUrl : string)
    (credentials : Credentials.t) (w : World) : option JS.thrown * World :=
  let wrap e :=
    JS.Error ("LM Studio connection failed: " ++ JS.messageOf e)%string in
  let (testResponse, w1) :=
    doFetch net (baseUrl ++ "/models")%string (getInit credentials) w in
  match testResponse with
  | Failed e => (Some (wrap e), w1)
  | Fulfilled testResponse =>
      if negb (ok testResponse) then
        (Some (wrap (JS.Error ("Cannot connect to LM Studio: " ++ statusLine testResponse)%string)), w1)
      else (None, w1)
  end.

(* ================================================================= *)
(** ** The embedding provider *)

(** The [TypeError] of reading [.embedding] of an absent element. *)
Definition readOfUndefined : JS.thrown :=
  JS.Error "Cannot read properties of undefined (reading 'embedding')".

(** The strings of an array of documents. *)
Definition stringsOf (docs : list Document) : list string :=
  flat_map (fun doc => match doc with Some s => [s] | None => [] end) docs.

(** The local array [results] together with the effects so far. *)
Record Frame : Type := {
  results : list Embedding;
  world : World
}.

Definition push (e : Embedding) (f : Frame) : Frame :=
  {| results := results f ++ [e]; world := world f |}.

(** [for (let i = 0; i < documents.length; i += batchSize)] with the
    body applied to [documents.slice(i, i + batchSize)] (lines 195-196 of
    the node).  The batch size is the integer the node parameter holds;
    nothing checks its sign.  The loop stops by its test only, so it is
    run on fuel: [None] when the fuel is spent. *)
Section ForBatches.
Context {S : Type}.
Variable documents : list Document.
Variable batchSize : Z.
Variable body : list Document -> S -> S.

Fixpoint forBatches (fuel : nat) (i : Z) (s : S) : option S :=
  match fuel with
  | O => None
  | Datatypes.S fuel' =>
      if (i <? Z.of_nat (length documents))%Z then
        let batch := JS.slice documents i (i + batchSize) in
        forBatches fuel' (i + batchSize) (body batch s)
      else Some s
  end.
End ForBatches.

Section Provider.
(** What the closures of [supplyData] capture. *)
Variable client : OpenAIEmbeddings.
Variable baseUrl : string.
Variable credentials : Credentials.t.
Variable model : string.
Variable encodingFormat : EncodingFormat.
Variable batchSize : Z.

Definition clientFields : ClientFields :=
  {| baseURL := baseUrl;
     clientApiKey := Credentials.apiKey credentials;
     clientModel := model |}.

Definition request (i : Input) : EmbeddingRequest :=
  {| Request.model := model;
     Request.input := i;
     Request.encoding_format := encodingFormat |}.

(** Single document embedding (lines 145-174). *)
Definition embedQuery (text : Document) (w : World) : Outcome Embedding * World :=
  match text with
  | None => (Raised (JS.Error "Text content is empty"), w)
  | Some s =>
      if negb (JS.truthy s) || negb (JS.truthy (JS.trim s)) then
        (Raised (JS.Error "Text content is empty"), w)
      else
        let wrap e :=
          Raised (JS.Error ("Error generating embedding: " ++ JS.messageOf e)%string) in
        match construct client clientFields with
        | Some e => (wrap e, w)
        | None =>
            let (response, w1) := doEmbeddingWithRetry client (request (Single s)) w in
            match response with
            | Rejected e => (wrap e, w1)
            | Resolved data =>
                match nth_error data 0 with
                | Some item => (Returned (embedding item), w1)
                | None => (wrap readOfUndefined, w1)
                end
            end
        end
  end.

(** "Map the results back to the original batch order" (lines 213-222):
    the loop over [batch] after a batched request resolved.  Reading
    past the end of [data] throws in the middle, with the pushes made so
    far kept. *)
Fixpoint mapBack (data : list EmbeddingItem) (batch : list Document)
    (validIndex : nat) (f : Frame) : option JS.thrown * Frame :=
  match batch with
  | [] => (None, f)
  | doc :: rest =>
      if nonBlank doc then
        match nth_error data validIndex with
        | Some item => mapBack data rest (Datatypes.S validIndex) (push (embedding item) f)
        | None => (Some readOfUndefined, f)
        end
      else mapBack data rest validIndex (push emptyEmbedding f)
  end.

(** "If batch fails, try individual documents" (lines 224-243): one
    request per non-blank document, an empty embedding for each one that
    fails. *)
Fixpoint embedIndividually (batch : list Document) (f : Frame) : Frame :=
  match batch with
  | [] => f
  | doc :: rest =>
      match doc with
      | Some s =>
          if nonBlank doc then
            let (response, w1) :=
              doEmbeddingWithRetry client (request (Single s)) (world f) in
            let f1 := {| results := results f; world := w1 |} in
            match response with
            | Resolved (item :: _) => embedIndividually rest (push (embedding item) f1)
            | Resolved [] => embedIndividually rest (push emptyEmbedding f1)
            | Rejected _ => embedIndividually rest (push emptyEmbedding f1)
            end
          else embedIndividually rest (push emptyEmbedding f)
      | None => embedIndividually rest (push emptyEmbedding f)
      end
  end.

(** The body of the batch loop (lines 196-244): no request for a batch
    of blank documents; otherwise one batched request, and the fallback
    when it is rejected or when mapping its answer back throws. *)
Definition processBatch (batch : list Document) (f : Frame) : Frame :=
  let validBatch := filter nonBlank batch in
  match validBatch with
  | [] =>
      {| results := results f ++ map (fun _ => emptyEmbedding) batch;
         world := world f |}
  | _ :: _ =>
      let (response, w1) :=
        doEmbeddingWithRetry client (request (Many (stringsOf validBatch))) (world f) in
      let f1 := {| results := results f; world := w1 |} in
      match response with
      | Resolved data =>
          match mapBack data batch 0 f1 with
          | (None, f2) => f2
          | (Some _, f2) => embedIndividually batch f2
          end
      | Rejected _ => embedIndividually batch f1
      end
  end.

(** Multiple documents embedding (lines 177-253).  Nothing thrown inside
    the loop escapes it, so the outer [catch] only sees the constructor.
    [Diverged] stands for a call that is still in its loop when the fuel
    is spent. *)
Definition embedDocuments (fuel : nat) (documents : option (list Document))
    (w : World) : Outcome (list Embedding) * World :=
  match documents with
  | None | Some [] => (Raised (JS.Error "No documents provided"), w)
  | Some documents =>
      match construct client clientFields with
      | Some e =>
          (Raised (JS.Error ("Error generating document embeddings: "
                             ++ JS.messageOf e)%string), w)
      | None =>
          match forBatches documents batchSize processBatch fuel 0%Z
                  {| results := []; world := w |} with
          | Some f => (Returned (results f), world f)
          | None => (Diverged, w)
          end
      end
  end.

End Provider.

(** The object [supplyData] hands to the host; [embedDocuments] takes
    the fuel of its loop first. *)
Module Provider.
Record t : Type := {
  embedQuery : Document -> World -> Outcome Embedding * World;
  embedDocuments : nat -> option (list Document) -> World
                   -> Outcome (list Embedding) * World
}.
End Provider.

(** [supplyData] (lines 116-264), from the credentials and node
    parameters the host returned: the connectivity check, then the
    provider.  The [closeFunction] of the result does nothing and is
    left out. *)
Definition supplyData (net : Network) (client : OpenAIEmbeddings)
    (credentials : Credentials.t) (model : string)
    (encodingFormat : EncodingFormat) (batchSize : Z) (w : World)
  : Outcome Provider.t * World :=
  let baseUrl := JS.replaceBackslashes (Credentials.baseUrl credentials) in
  match testConnection net baseUrl credentials w with
  | (Some e, w1) => (Raised e, w1)
  | (None, w1) =>
      let embeddingProvider :=
        {| Provider.embedQuery :=
             embedQuery client baseUrl credentials model encodingFormat;
           Provider.embedDocuments :=
             embedDocuments client baseUrl credentials model encodingFormat batchSize |} in
      (Returned embeddingProvider, w1)
  end.

(* ================================================================= *)
(** ** The partition the specification describes *)

(** "Partition the input list into consecutive chunks of at most B items
    each": the [k]-th chunk holds the items at positions [k*B] to
    [k*B + B - 1] that exist, and there are [ceil(N/B)] of them. *)
Definition chunk {A : Type} (B : nat) (l : list A) (k : nat) : list A :=
  firstn B (skipn (k * B) l).

Definition chunkCount (N B : nat) : nat := (N + B - 1) / B.

Definition chunks {A : Type} (B : nat) (l : list A) : list (list A) :=
  map (chunk B l) (seq 0 (chunkCount (length l) B)).

(** The chunks of a run, for a batch size given as the integer the node
    parameter holds. *)
Definition batches (batchSize : Z) (documents : list Document) : list (list Document) :=
  chunks (Z.to_nat batchSize) documents.

(** "Blank" in the specification's words: null, empty, or made of white
    space only (the empty string is the case of no character at all). *)
Definition whitespaceOnly (s : string) : bool :=
  forallb JS.isWhiteSpace (list_ascii_of_string s).

Definition blank (doc : Document) : Prop :=
  match doc with
  | None => True
  | Some s => whitespaceOnly s = true
  end.

(* ================================================================= *)
(** ** What a result owes to the requests of a run *)

(** The request submits the string [s] at position [k] of its input. *)
Definition carries (req : EmbeddingRequest) (k : nat) (s : string) : Prop :=
  match Request.input req with
  | Single t => k = 0 /\ t = s
  | Many ts => nth_error ts k = Some s
  end.

(** [e] is what an answered request of the log returned for [s]: the
    [embedding] field of the element at the position [s] was submitted at. *)
Definition answered (calls : list (EmbeddingRequest * Response))
    (s : string) (e : Embedding) : Prop :=
  exists req data k item,
    In (req, Resolved data) calls /\ carries req k s /\
    nth_error data k = Some item /\ embedding item = e.

(** A request of [s] on its own failed: it was rejected, or answered
    without an element. *)
Definition failedAlone (calls : list (EmbeddingRequest * Response)) (s : string) : Prop :=
  exists req response,
    In (req, response) calls /\ Request.input req = Single s /\
    (response = Resolved [] \/ exists e, response = Rejected e).

(** Every request of the log that submitted [s] failed to answer it. *)
Definition unanswered (calls : list (EmbeddingRequest * Response)) (s : string) : Prop :=
  forall req response k,
    In (req, response) calls -> carries req k s ->
    match response with
    | Resolved data => nth_error data k = None
    | Rejected _ => True
    end.

(** The entry of the result that stands for a document: the empty
    embedding for a blank one; for any other, what a request returned for
    it, or the empty embedding after its own request failed. *)
Definition aligned (calls : list (EmbeddingRequest * Response))
    (doc : Document) (e : Embedding) : Prop :=
  match doc with
  | Some s =>
      if nonBlank doc then
        answered calls s e \/ (e = emptyEmbedding /\ failedAlone calls s)
      else e = emptyEmbedding
  | None => e = emptyEmbedding
  end.

(** A batched request that resolves brings at least one element per
    submitted string, as the embeddings API answers. *)
Definition answersInFull (client : OpenAIEmbeddings) : Prop :=
  forall n req ts data,
    Request.input req = Many ts ->
    embeddingWithRetry client n req = Resolved data ->
    length ts <= length data.

(** The world after further embeddings requests. *)
Definition logged (w : World) (new : list (EmbeddingRequest * Response)) : World :=
  {| fetched := fetched w; called := called w ++ new |}.

(** The frame after further pushes and requests. *)
Definition grown (f : Frame) (out : list Embedding)
    (new : list (EmbeddingRequest * Response)) : Frame :=
  {| results := results f ++ out; world := logged (world f) new |}.

(** What [mapBack] pushes for a document when [data] answers the strings
    [submitted]. *)
Definition mapped (submitted : list string) (data : list EmbeddingItem)
    (doc : Document) (e : Embedding) : Prop :=
  if nonBlank doc then
    exists s k item,
      doc = Some s /\ nth_error submitted k = Some s /\
      nth_error data k = Some item /\ embedding item = e
  else e = emptyEmbedding.

(** The entry a document gets when every request is answered by the
    embedding function [emb]. *)
Definition expected (emb : string -> Embedding) (doc : Document) : Embedding :=
  match doc with
  | Some s => if nonBlank doc then emb s else emptyEmbedding
  | None => emptyEmbedding
  end.

(** The strings a request submits, in order. *)
Definition submittedBy (req : EmbeddingRequest) : list string :=
  match Request.input req with
  | Single s => [s]
  | Many l => l
  end.

(** Every call resolves, with the embedding [emb] gives for each
    submitted string, in order. *)
Definition answersWith (emb : string -> Embedding) (client : OpenAIEmbeddings) : Prop :=
  forall n req,
    exists data,
      embeddingWithRetry client n req = Resolved data
      /\ map embedding data = map emb (submittedBy req).

(* ================================================================= *)
(** ** The credential descriptor *)

Module LMStudioApi.

(** [authenticate.properties.headers] of the credential type. *)
Definition authenticate : list (string * string) :=
  [("Authorization", "=Bearer {{$credentials.apiKey}}")].

(** [test.request] of the credential type. *)
Record ICredentialTestRequest : Type := {
  testBaseURL : string;
  testUrl : string;
  testMethod : string
}.

Definition test : ICredentialTestRequest :=
  {| testBaseURL := "={{$credentials.baseUrl}}";
     testUrl := "/models";
     testMethod := "GET" |}.

End LMStudioApi.

(** How the host reads a descriptor value: one that starts with [=] is
    an expression, in which each [{{$credentials.<field>}}] stands for
    the field of the credential; any other value is taken as it is.  The
    host applies generic authentication by setting every header the
    descriptor lists, resolved this way, on the outgoing request. *)
Module Host.

Fixpoint startsWith (pattern s : string) : bool :=
  match pattern, s with
  | EmptyString, _ => true
  | String p pattern', String c s' => Ascii.eqb p c && startsWith pattern' s'
  | String _ _, EmptyString => false
  end.

(** Replace every occurrence of a non-empty [pattern]; [skip] counts the
    characters of an occurrence still to be dropped. *)
Fixpoint replaceFrom (pattern replacement : string) (skip : nat) (s : string) : string :=
  match s with
  | EmptyString => EmptyString
  | String c s' =>
      match skip with
      | S k => replaceFrom pattern replacement k s'
      | O =>
          if startsWith pattern s then
            (replacement ++ replaceFrom pattern replacement (String.length pattern - 1) s')%string
          else String c (replaceFrom pattern replacement 0 s')
      end
  end.

Definition fieldText (field : option string) : string :=
  match field with Some v => v | None => "" end.

Definition resolveValue (credentials : Credentials.t) (v : string) : string :=
  match v with
  | String "="%char expression =>
      replaceFrom "{{$credentials.apiKey}}" (fieldText (Credentials.apiKey credentials)) 0
        (replaceFrom "{{$credentials.baseUrl}}" (Credentials.baseUrl credentials) 0 expression)
  | _ => v
  end.

Definition authenticateGeneric (credentials : Credentials.t) (init : RequestInit)
  : RequestInit :=
  {| method := method init;
     headers := headers init
                ++ map (fun h => (resolveValue credentials (fst h),
                                  resolveValue credentials (snd h)))
                     LMStudioApi.authenticate |}.

(** The request of the credential test, as the host sends it. *)
Definition credentialTest (credentials : Credentials.t) : string * RequestInit :=
  ((resolveValue credentials (LMStudioApi.testBaseURL LMStudioApi.test)
    ++ LMStudioApi.testUrl LMStudioApi.test)%string,
   authenticateGeneric credentials
     {| method := LMStudioApi.testMethod LMStudioApi.test; headers := [] |}).

End Host.

(** The key the direct-output variant of the node hands to the client:
    [credentials.apiKey as string || 'dummy-key']. *)
Definition openAIApiKey (credentials : Credentials.t) : string :=
  match Credentials.apiKey credentials with
  | Some key => if JS.truthy key then key else "dummy-key"
  | None => "dummy-key"
  end.

(* ================================================================= *)
(** ** Sample environments *)

(** A client whose constructor returns and whose every call resolves
    with one element per submitted string, numbered from zero. *)
Definition answering (emb : string -> Embedding) : OpenAIEmbeddings :=
  {| construct := fun _ => None;
     embeddingWithRetry := fun _ req =>
       Resolved (map (fun p => {| index := Z.of_nat (fst p); embedding := emb (snd p) |})
                     (combine (seq 0 (length (submittedBy req))) (submittedBy req))) |}.

(** A client whose batched requests are rejected while single ones are
    answered. *)
Definition batchRejecting (emb : string -> Embedding) : OpenAIEmbeddings :=
  {| construct := fun _ => None;
     embeddingWithRetry := fun n req =>
       match Request.input req with
       | Single _ => embeddingWithRetry (answering emb) n req
       | Many _ => Rejected (JS.Error "Request failed with status code 500")
       end |}.

(** A client whose every request is rejected. *)
Definition rejecting : OpenAIEmbeddings :=
  {| construct := fun _ => None;
     embeddingWithRetry := fun _ _ => Rejected (JS.Error "Connection error.") |}.

(** A client whose constructor throws. *)
Definition unconfigured : OpenAIEmbeddings :=
  {| construct := fun _ => Some (JS.Error "OpenAI or Azure OpenAI API key not found");
     embeddingWithRetry := embeddingWithRetry rejecting |}.

(** The payload a server in [base64] mode echoes for a text, as a
    stand-in for a model. *)
Definition echo (s : string) : Embedding := Base64 s.

Definition localCredentials : Credentials.t :=
  {| Credentials.baseUrl := "http://localhost:1234/v1"; Credentials.apiKey := Some "" |}.

Definition keyedCredentials : Credentials.t :=
  {| Credentials.baseUrl := "http://localhost:1234/v1"; Credentials.apiKey := Some "sk-1" |}.

(** A server that lists the models [a] and [b]. *)
Definition listingAB : Network :=
  fun _ _ =>
    Fulfilled {| ok := true; status := 200; statusText := "OK";
                 json := inr {| data := Some [ {| id := "a" |}; {| id := "b" |} ] |} |}.

(** A server that answers every request with status 503. *)
Definition unavailable : Network :=
  fun _ _ =>
    Fulfilled {| ok := false; status := 503; statusText := "Service Unavailable";
                 json := inl (JS.Error "Unexpected end of JSON input") |}.

(* ================================================================= *)
(** ** The requests a chunk issues *)

(** A chunk with a document that is not blank: the only chunks that
    issue requests. *)
Definition busy (batch : list Document) : bool := existsb nonBlank batch.

(** The batched request of a chunk (lines 207-211) and the requests of
    its fallback (lines 230-234), one per non-blank document in order. *)
Definition batched (model : string) (encodingFormat : EncodingFormat)
    (batch : list Document) : EmbeddingRequest :=
  request model encodingFormat (Many (stringsOf (filter nonBlank batch))).

Definition singles (model : string) (encodingFormat : EncodingFormat)
    (batch : list Document) : list EmbeddingRequest :=
  map (fun s => request model encodingFormat (Single s))
      (stringsOf (filter nonBlank batch)).

(** A request as a run over [documents] with batch size [B] issues
    them: the model and format of the node, at least one string, only
    non-blank strings of the input, at most [B] of them when batched. *)
Definition issuedFrom (model : string) (encodingFormat : EncodingFormat) (B : nat)
    (documents : list Document) (req : EmbeddingRequest) : Prop :=
  Request.model req = model
  /\ Request.encoding_format req = encodingFormat
  /\ submittedBy req <> []
  /\ Forall (fun s => In (Some s) documents /\ nonBlank (Some s) = true) (submittedBy req)
  /\ match Request.input req with
     | Single _ => True
     | Many l => length l <= B
     end.

(** Every call is rejected. *)
Definition rejectsAll (client : OpenAIEmbeddings) : Prop :=
  forall n req, exists e, embeddingWithRetry client n req = Rejected e.

(** How many documents of a chunk the loop of lines 215-222 passes
    before it reads the answer of index [k]: the documents before the
    non-blank document number [k] of the chunk, counted from zero. *)
Fixpoint reach (k : nat) (batch : list Document) : nat :=
  match batch with
  | [] => 0
  | doc :: rest =>
      if nonBlank doc then
        match k with
        | O => 0
        | S k' => S (reach k' rest)
        end
      else S (reach k rest)
  end.

(** A client whose batched answers stop after the first element. *)
Definition truncating (emb : string -> Embedding) : OpenAIEmbeddings :=
  {| construct := fun _ => None;
     embeddingWithRetry := fun n req =>
       match Request.input req with
       | Single _ => embeddingWithRetry (answering emb) n req
       | Many l =>
           Resolved (map (fun s => {| index := 0; embedding := emb s |}) (firstn 1 l))
       end |}.

(* ================================================================= *)
(** ** The older variant of the provider *)

(** [supplyData] of the older variant of the node (its lines 97-132):
    no connectivity check, a provider with [embedQuery] only, and no
    [try] around the constructor and the request, so what they throw
    reaches the caller as it is.  The credentials and node parameters,
    which this variant reads at each call, are taken as returned by the
    host. *)
Module Older.

Module Provider.
Record t : Type := {
  embedQuery : Document -> World -> Outcome Embedding * World
}.
End Provider.

Definition embedQuery (client : OpenAIEmbeddings) (credentials : Credentials.t)
    (model : string) (encodingFormat : EncodingFormat)
    (text : Document) (w : World) : Outcome Embedding * World :=
  match text with
  | None => (Raised (JS.Error "Text content is empty"), w)
  | Some s =>
      if negb (JS.truthy s) || negb (JS.truthy (JS.trim s)) then
        (Raised (JS.Error "Text content is empty"), w)
      else
        match construct client
                (clientFields (Credentials.baseUrl credentials) credentials model) with
        | Some e => (Raised e, w)
        | None =>
            let (response, w1) :=
              doEmbeddingWithRetry client (request model encodingFormat (Single s)) w in
            match response with
            | Rejected e => (Raised e, w1)
            | Resolved data =>
                match nth_error data 0 with
                | Some item => (Returned (embedding item), w1)
                | None => (Raised readOfUndefined, w1)
                end
            end
        end
  end.

Definition supplyData (client : OpenAIEmbeddings) (credentials : Credentials.t)
    (model : string) (encodingFormat : EncodingFormat) (w : World)
  : Outcome Provider.t * World :=
  let embeddingProvider :=
    {| Provider.embedQuery := embedQuery client credentials model encodingFormat |} in
  (Returned embeddingProvider, w).

End Older.

(** A base URL written with backslashes. *)
Definition windowsCredentials : Credentials.t :=
  {| Credentials.baseUrl := "http:\\localhost:1234\v1"; Credentials.apiKey := None |}.

(** A server that answers with a body that holds no [data]. *)
Definition listingNothing : Network :=
  fun _ _ =>
    Fulfilled {| ok := true; status := 200; statusText := "OK";
                 json := inr {| data := None |} |}.

(* ================================================================= *)
(** ** The direct-output variant of the node *)

(** [execute] of the variant that writes embeddings to the workflow
    data (its lines 126-286).  The host gives the items with their
    parameters and says whether to continue on failure; the client
    library takes richer constructor fields and requests here, and what
    it throws is kept with the fields the [catch] reads.  [JSON.parse]
    is the host's: what it returns for a text, if anything.  An answer
    is taken with its [data] array, as for the provider. *)
Module Direct.

Inductive ProcessingMode : Type := SingleText | MultipleTexts.

#[warnings="-register-all"]
Inductive JsonValue : Type :=
| JNull
| JBool (b : bool)
| JNumber (x : float)
| JString (s : string)
| JArray (elements : list JsonValue)
| JObject (members : list (string * JsonValue)).

(** The node parameters of one item.  [dimensions] is [None] while the
    field is left at its empty default. *)
Module Parameters.
Record t : Type := {
  model : string;
  input : Document;
  processingMode : ProcessingMode;
  encodingFormat : EncodingFormat;
  dimensions : option Z;
  user : string;
  maxConcurrency : Z;
  maxRetries : Z
}.
End Parameters.

(** [inputTexts]: the trimmed text, or the array of the texts. *)
Inductive Texts : Type :=
| Text (s : string)
| TextList (l : list JsonValue).

Module Request.
Record t : Type := {
  input : Texts;
  model : string;
  encoding_format : EncodingFormat;
  dimensions : option Z;
  user : option string
}.
End Request.

Module Fields.
Record t : Type := {
  openAIApiKey : string;
  modelName : string;
  maxConcurrency : Z;
  maxRetries : Z;
  baseURL : string;
  dimensions : option Z
}.
End Fields.

(** [error.response], when [error.response.data] is truthy:
    [data?.error?.message] and [statusText]. *)
Record ErrorResponse : Type := {
  dataErrorMessage : option string;
  responseStatusText : option string
}.

(** A thrown value, by what the [catch] reads of it. *)
Record Thrown : Type := {
  message : option string;
  constructorName : option string;
  response : option ErrorResponse
}.

Inductive Response : Type :=
| Resolved (data : list EmbeddingItem)
| Rejected (e : Thrown).

Record Client : Type := {
  construct : Fields.t -> option Thrown;
  embeddingWithRetry : nat -> Request.t -> Response
}.

Record Host : Type := {
  parse : string -> option JsonValue;
  continueOnFail : bool
}.

(** The clients constructed and the requests issued, oldest first. *)
Record World : Type := {
  built : list Fields.t;
  sent : list (Request.t * Response)
}.

Definition emptyWorld : World := {| built := []; sent := [] |}.

(** [result]: one embedding, or the array of them. *)
Inductive Result : Type :=
| One (e : Embedding)
| Several (l : list Embedding).

(** The [embedding] field of an output record: an embedding, or one
    number of it. *)
Inductive Payload : Type :=
| Whole (e : Embedding)
| Component (x : float).

Module DataItem.
Record t : Type := {
  object : string;
  index : nat;
  embedding : Payload
}.
End DataItem.

Inductive Dimensions : Type :=
| Count (n : nat)
| Label (s : string).

Module Json.
Record t : Type := {
  model : string;
  data : list DataItem.t;
  input_text : Texts;
  processing_mode : ProcessingMode;
  encoding_format : EncodingFormat;
  embedding_dimensions : Dimensions
}.
End Json.

Inductive ExecutionData : Type :=
| Output (json : Json.t)
| ErrorOutput (error : string) (error_type : string) (pairedItem : nat).

(** How [execute] ends: with [[returnData]], or with a
    [NodeOperationError] that names an item. *)
Inductive Run : Type :=
| Done (returnData : list ExecutionData)
| Aborted (message : string) (itemIndex : nat).

Definition nodeOperationError (text : string) : Thrown :=
  {| message := Some text; constructorName := Some "NodeOperationError"; response := None |}.

Definition typeError (text : string) : Thrown :=
  {| message := Some text; constructorName := Some "TypeError"; response := None |}.

(** Truthiness of an optional string and of the dimensions parameter. *)
Definition truthyText (s : option string) : bool :=
  match s with Some v => JS.truthy v | None => false end.

Definition truthyNumber (n : option Z) : bool :=
  match n with Some v => negb (v =? 0)%Z | None => false end.

(** [...(dimensions && { dimensions })] and [...(user && { user })] *)
Definition spreadDimensions (dimensions : option Z) : option Z :=
  if truthyNumber dimensions then dimensions else None.

Definition spreadUser (user : string) : option string :=
  if JS.truthy user then Some user else None.

(** [Array.prototype.map] with the index. *)
Definition mapIndexed {A B : Type} (f : A -> nat -> B) (l : list A) : list B :=
  map (fun p => f (snd p) (fst p)) (combine (seq 0 (length l)) l).

Definition isArray (result : Result) : bool :=
  match result with
  | One (Vector _) => true
  | One (Base64 _) => false
  | Several _ => true
  end.

Definition resultLength (result : Result) : nat :=
  match result with
  | One (Vector v) => length v
  | One (Base64 s) => String.length s
  | Several l => length l
  end.

(** [Array.isArray(result[0]) ? result[0].length : 'unknown'] *)
Definition firstEmbeddingLength (result : Result) : Dimensions :=
  match result with
  | Several (Vector v :: _) => Count (length v)
  | _ => Label "unknown"
  end.

(** Lines 209-224. *)
Definition processedData (result : Result) : list DataItem.t :=
  match result with
  | Several l =>
      mapIndexed (fun e index =>
                    {| DataItem.object := "embedding";
                       DataItem.index := index;
                       DataItem.embedding := Whole e |}) l
  | One (Vector v) =>
      mapIndexed (fun e index =>
                    {| DataItem.object := "embedding";
                       DataItem.index := index;
                       DataItem.embedding := Component e |}) v
  | One (Base64 s) =>
      [ {| DataItem.object := "embedding";
           DataItem.index := 0;
           DataItem.embedding := Whole (Base64 s) |} ]
  end.

(** Lines 226-240. *)
Definition embeddingDimensions (encodingFormat : EncodingFormat) (result : Result)
  : Dimensions :=
  match encodingFormat with
  | Float =>
      if isArray result && (0 <? resultLength result) then firstEmbeddingLength result
      else if isArray result then Count (resultLength result)
      else Label "unknown"
  | Base64Format => Label "encoded_as_base64"
  end.

Definition send (client : Client) (request : Request.t) (w : World) : Response * World :=
  let r := embeddingWithRetry client (length (sent w)) request in
  (r, {| built := built w; sent := sent w ++ [(request, r)] |}).

(** The options of [new OpenAIEmbeddings(...)] (lines 149-159). *)
Definition fieldsOf (credentials : Credentials.t) (p : Parameters.t) : Fields.t :=
  {| Fields.openAIApiKey := openAIApiKey credentials;
     Fields.modelName := Parameters.model p;
     Fields.maxConcurrency := Parameters.maxConcurrency p;
     Fields.maxRetries := Parameters.maxRetries p;
     Fields.baseURL := Credentials.baseUrl credentials;
     Fields.dimensions := spreadDimensions (Parameters.dimensions p) |}.

(** The argument of [embeddingWithRetry] in the two overrides (lines
    163-183). *)
Definition requestOf (p : Parameters.t) (texts : Texts) : Request.t :=
  {| Request.input := texts;
     Request.model := Parameters.model p;
     Request.encoding_format := Parameters.encodingFormat p;
     Request.dimensions := spreadDimensions (Parameters.dimensions p);
     Request.user := spreadUser (Parameters.user p) |}.

(** The texts of the multiple mode (lines 189-197): the parsed array,
    or the trimmed input alone when the input does not parse to one. *)
Definition textsOf (host : Host) (input : string) : list JsonValue :=
  match parse host input with
  | Some (JArray elements) => elements
  | _ => [JString (JS.trim input)]
  end.

(** The [json] of a record (lines 243-252). *)
Definition outputOf (p : Parameters.t) (inputTexts : Texts) (result : Result) : Json.t :=
  {| Json.model := Parameters.model p;
     Json.data := processedData result;
     Json.input_text := inputTexts;
     Json.processing_mode := Parameters.processingMode p;
     Json.encoding_format := Parameters.encodingFormat p;
     Json.embedding_dimensions :=
       embeddingDimensions (Parameters.encodingFormat p) result |}.

(** The body of the [try] for one item (lines 133-254): the thrown
    value, or the [json] of the record to push.  The parameters are
    taken as the host returned them. *)
Definition tryItem (client : Client) (host : Host) (credentials : Credentials.t)
    (p : Parameters.t) (w : World) : (Thrown + Json.t) * World :=
  let required := nodeOperationError "Input text is required" in
  match Parameters.input p with
  | None => (inl required, w)
  | Some input =>
      if negb (JS.truthy input) || (String.length (JS.trim input) =? 0) then
        (inl required, w)
      else
        let w0 := {| built := built w ++ [fieldsOf credentials p]; sent := sent w |} in
        match construct client (fieldsOf credentials p) with
        | Some e => (inl e, w0)
        | None =>
            match Parameters.processingMode p with
            | MultipleTexts =>
                let inputTexts := textsOf host input in
                let (response, w1) := send client (requestOf p (TextList inputTexts)) w0 in
                match response with
                | Rejected e => (inl e, w1)
                | Resolved data =>
                    (inr (outputOf p (TextList inputTexts) (Several (map embedding data))),
                     w1)
                end
            | SingleText =>
                let inputTexts := JS.trim input in
                let (response, w1) := send client (requestOf p (Text inputTexts)) w0 in
                match response with
                | Rejected e => (inl e, w1)
                | Resolved data =>
                    match nth_error data 0 with
                    | Some item =>
                        (inr (outputOf p (Text inputTexts) (One (embedding item))), w1)
                    | None =>
                        (inl (typeError "Cannot read properties of undefined (reading 'embedding')"),
                         w1)
                    end
                end
            end
        end
  end.

(** [error?.message || 'Unknown error'] and
    [error?.constructor?.name || 'Error'] *)
Definition errorText (e : Thrown) : string :=
  if truthyText (message e) then match message e with Some m => m | None => "" end
  else "Unknown error".

Definition errorType (e : Thrown) : string :=
  if truthyText (constructorName e)
  then match constructorName e with Some n => n | None => "" end
  else "Error".

(** The message of the [NodeOperationError] of lines 268-280. *)
Definition abortMessage (e : Thrown) : string :=
  let errorMessage :=
    if truthyText (message e) then match message e with Some m => m | None => "" end
    else "LM Studio API error" in
  match response e with
  | Some r =>
      (errorMessage ++ ": "
       ++ (if truthyText (dataErrorMessage r)
           then match dataErrorMessage r with Some m => m | None => "" end
           else match responseStatusText r with Some t => t | None => "undefined" end))%string
  | None => errorMessage
  end.

(** The record pushed for item [i] when the loop goes on. *)
Definition recordOf (i : nat) (tried : Thrown + Json.t) : ExecutionData :=
  match tried with
  | inr json => Output json
  | inl error => ErrorOutput (errorText error) (errorType error) i
  end.

(** The loop over the items, from item [i] on. *)
Fixpoint executeFrom (client : Client) (host : Host) (credentials : Credentials.t)
    (i : nat) (items : list Parameters.t) (returnData : list ExecutionData)
    (w : World) : Run * World :=
  match items with
  | [] => (Done returnData, w)
  | p :: rest =>
      match tryItem client host credentials p w with
      | (inr json, w1) =>
          executeFrom client host credentials (S i) rest (returnData ++ [Output json]) w1
      | (inl error, w1) =>
          if continueOnFail host then
            executeFrom client host credentials (S i) rest
              (returnData ++ [ErrorOutput (errorText error) (errorType error) i]) w1
          else (Aborted (abortMessage error) i, w1)
      end
  end.

Definition execute (client : Client) (host : Host) (credentials : Credentials.t)
    (items : list Parameters.t) (w : World) : Run * World :=
  executeFrom client host credentials 0 items [] w.

End Direct.

(** What the direct-output variant never hands over: an empty API key,
    another base URL than the credential's, a [dimensions] of zero, an
    empty [user], an empty text. *)
Definition cleanFields (credentials : Credentials.t) (f : Direct.Fields.t) : Prop :=
  Direct.Fields.openAIApiKey f <> EmptyString
  /\ Direct.Fields.baseURL f = Credentials.baseUrl credentials
  /\ Direct.Fields.dimensions f <> Some 0%Z.

Definition cleanRequest (req : Direct.Request.t) : Prop :=
  Direct.Request.dimensions req <> Some 0%Z
  /\ Direct.Request.user req <> Some EmptyString
  /\ Direct.Request.input req <> Direct.Text EmptyString.

Definition isOutput (record : Direct.ExecutionData) : Prop :=
  match record with
  | Direct.Output _ => True
  | Direct.ErrorOutput _ _ _ => False
  end.

(** Sample environments of the direct-output variant: a client that
    answers every text with the vector of 0.5 and 0.25, one that rejects
    every request, a host whose [JSON.parse] reads the text [1,2] as the
    array of 1 and 2 and throws on any other text, and items. *)
Definition directAnswering : Direct.Client :=
  {| Direct.construct := fun _ => None;
     Direct.embeddingWithRetry := fun _ req =>
       let item := {| index := 7; embedding := Vector [0.5%float; 0.25%float] |} in
       match Direct.Request.input req with
       | Direct.Text _ => Direct.Resolved [item]
       | Direct.TextList l => Direct.Resolved (map (fun _ => item) l)
       end |}.

Definition directRejecting : Direct.Client :=
  {| Direct.construct := fun _ => None;
     Direct.embeddingWithRetry := fun _ _ =>
       Direct.Rejected
         {| Direct.message := Some "Request failed with status code 404";
            Direct.constructorName := Some "Error";
            Direct.response :=
              Some {| Direct.dataErrorMessage := Some "model not found";
                      Direct.responseStatusText := Some "Not Found" |} |} |}.

Definition sampleHost (continue : bool) : Direct.Host :=
  {| Direct.parse := fun text =>
       if String.eqb text "[1,2]"
       then Some (Direct.JArray [Direct.JNumber 1%float; Direct.JNumber 2%float])
       else None;
     Direct.continueOnFail := continue |}.

Definition sampleItem (mode : Direct.ProcessingMode) (format : EncodingFormat)
    (input : string) : Direct.Parameters.t :=
  {| Direct.Parameters.model := "text-embedding-ada-002";
     Direct.Parameters.input := Some input;
     Direct.Parameters.processingMode := mode;
     Direct.Parameters.encodingFormat := format;
     Direct.Parameters.dimensions := None;
     Direct.Parameters.user := "";
     Direct.Parameters.maxConcurrency := 2;
     Direct.Parameters.maxRetries := 2 |}.

(** A request of the direct-output variant without a zero [dimensions]
    and without an empty [user]. *)
Definition tidyRequest (req : Direct.Request.t) : Prop :=
  Direct.Request.dimensions req <> Some 0%Z
  /\ Direct.Request.user req <> Some EmptyString.

(** An item of the direct-output variant whose input passes the guard. *)
Definition filled (p : Direct.Parameters.t) : bool :=
  nonBlank (Direct.Parameters.input p).

(** A client that behaves as [client] for its first [k] calls and whose
    later calls are all rejected: a server that goes down. *)
Definition failingAfter (k : nat) (client : OpenAIEmbeddings) : OpenAIEmbeddings :=
  {| construct := construct client;
     embeddingWithRetry := fun n req =>
       if n <? k then embeddingWithRetry client n req
       else Rejected (JS.Error "Connection error.") |}.

Unset Implicit Arguments.

(* ================================================================= *)
(** ** Arithmetic of the chunk count *)

Lemma chunkCount_lt (N B k : nat) :
  1 <= B -> (k < chunkCount N B <-> k * B < N).
Proof.
  intros HB. unfold chunkCount.
  assert (Hd := Nat.div_mod_eq (N + B - 1) B).
  assert (Hm : (N + B - 1) mod B < B) by (apply Nat.mod_upper_bound; lia).
  split; intros H; nia.
Qed.

Lemma chunkCount_le (N B : nat) : 1 <= B -> chunkCount N B <= N.
Proof.
  intros HB.
  destruct (Nat.le_gt_cases (chunkCount N B) N) as [H | H]; [exact H | ].
  apply (chunkCount_lt N B N HB) in H. nia.
Qed.

Lemma chunkCount_covers (N B : nat) : 1 <= B -> N <= chunkCount N B * B.
Proof.
  intros HB.
  destruct (Nat.le_gt_cases N (chunkCount N B * B)) as [H | H]; [exact H | ].
  apply (chunkCount_lt N B (chunkCount N B) HB) in H. lia.
Qed.

(* ================================================================= *)
(** ** Slices and chunks *)

Lemma firstn_plus {A : Type} (a b : nat) (l : list A) :
  firstn (a + b) l = firstn a l ++ firstn b (skipn a l).
Proof.
  revert l. induction a as [| a IH]; intros l; simpl; [reflexivity | ].
  destruct l as [| x l]; simpl.
  - now rewrite firstn_nil.
  - now rewrite IH.
Qed.

Lemma slice_chunk {A : Type} (l : list A) (B : Z) (k : nat) :
  (1 <= B)%Z -> k * Z.to_nat B < length l ->
  JS.slice l (Z.of_nat k * B) (Z.of_nat k * B + B) = chunk (Z.to_nat B) l k.
Proof.
  intros HB Hk. unfold JS.slice, JS.clampIndex, chunk.
  set (b := Z.to_nat B) in *.
  assert (HBb : B = Z.of_nat b) by (unfold b; lia).
  destruct (Z.ltb_spec (Z.of_nat k * B) 0) as [Hneg | _]; [nia | ].
  destruct (Z.ltb_spec (Z.of_nat k * B + B) 0) as [Hneg | _]; [nia | ].
  replace (Z.to_nat (Z.min (Z.of_nat k * B) (Z.of_nat (length l)))) with (k * b) by nia.
  destruct (Z.le_gt_cases (Z.of_nat k * B + B) (Z.of_nat (length l))) as [Hin | Hout].
  - f_equal. nia.
  - rewrite !firstn_all2; [reflexivity | rewrite length_skipn; nia | rewrite length_skipn; nia].
Qed.

Lemma concat_chunks_prefix {A : Type} (B : nat) (l : list A) (m : nat) :
  concat (map (chunk B l) (seq 0 m)) = firstn (m * B) l.
Proof.
  induction m as [| m IH]; [reflexivity | ].
  rewrite seq_S, map_app, concat_app, IH. simpl.
  rewrite app_nil_r. unfold chunk.
  replace (B + m * B) with (m * B + B) by lia.
  now rewrite firstn_plus.
Qed.

Lemma concat_chunks {A : Type} (B : nat) (l : list A) :
  1 <= B -> concat (chunks B l) = l.
Proof.
  intros HB. unfold chunks. rewrite concat_chunks_prefix.
  apply firstn_all2. now apply chunkCount_covers.
Qed.

Lemma length_chunks {A : Type} (B : nat) (l : list A) :
  length (chunks B l) = chunkCount (length l) B.
Proof. unfold chunks. now rewrite length_map, length_seq. Qed.

Lemma length_chunk {A : Type} (B : nat) (l : list A) (k : nat) :
  length (chunk B l k) = Nat.min B (length l - k * B).
Proof. unfold chunk. now rewrite length_firstn, length_skipn. Qed.

Lemma chunks_bounds {A : Type} (B : nat) (l : list A) :
  1 <= B -> Forall (fun c => 1 <= length c <= B) (chunks B l).
Proof.
  intros HB. unfold chunks. apply Forall_forall. intros c Hc.
  apply in_map_iff in Hc. destruct Hc as [k [<- Hk]].
  apply in_seq in Hk. rewrite length_chunk.
  assert (k * B < length l) by (apply chunkCount_lt; lia).
  lia.
Qed.

(* ================================================================= *)
(** ** The batch loop *)

Section ForBatchesFacts.
Context {S : Type}.
Variable documents : list Document.
Variable batchSize : Z.
Variable body : list Document -> S -> S.

Let run := forBatches documents batchSize body.
Let step := fun (s : S) (batch : list Document) => body batch s.

(** From the [k]-th chunk on, the loop applies the body to the
    remaining chunks in order and then stops. *)
Lemma forBatches_from (m k fuel : nat) (s : S) :
  (1 <= batchSize)%Z ->
  k + m = chunkCount (length documents) (Z.to_nat batchSize) ->
  m < fuel ->
  run fuel (Z.of_nat k * batchSize)%Z s
  = Some (fold_left step (map (chunk (Z.to_nat batchSize) documents) (seq k m)) s).
Proof.
  intros HB. revert k fuel s.
  induction m as [| m IH]; intros k fuel s Hk Hfuel;
    (destruct fuel as [| fuel]; [lia | ]); unfold run; simpl.
  - destruct (Z.ltb_spec (Z.of_nat k * batchSize) (Z.of_nat (length documents)))
      as [Hlt | _]; [ | reflexivity].
    assert (k < chunkCount (length documents) (Z.to_nat batchSize))
      by (apply chunkCount_lt; nia).
    lia.
  - assert (Hin : k * Z.to_nat batchSize < length documents)
      by (apply chunkCount_lt; lia).
    destruct (Z.ltb_spec (Z.of_nat k * batchSize) (Z.of_nat (length documents)))
      as [_ | Hge]; [ | nia].
    rewrite slice_chunk by assumption.
    replace (Z.of_nat k * batchSize + batchSize)%Z
      with (Z.of_nat (Datatypes.S k) * batchSize)%Z by lia.
    apply IH; lia.
Qed.

(** With a batch size that is not positive the index stays at or
    below zero and the test never fails. *)
Lemma forBatches_stuck (fuel : nat) (i : Z) (s : S) :
  (batchSize <= 0)%Z -> (i <= 0)%Z -> documents <> [] ->
  run fuel i s = None.
Proof.
  intros HB Hi Hne. revert i s Hi.
  induction fuel as [| fuel IH]; intros i s Hi; unfold run; simpl; [reflexivity | ].
  destruct (Z.ltb_spec i (Z.of_nat (length documents))) as [_ | Hge].
  - apply IH. lia.
  - destruct documents; [congruence | simpl in Hge; lia].
Qed.

Lemma forBatches_all (fuel : nat) (s : S) :
  (1 <= batchSize)%Z ->
  chunkCount (length documents) (Z.to_nat batchSize) < fuel ->
  run fuel 0%Z s = Some (fold_left step (batches batchSize documents) s).
Proof.
  intros HB Hfuel.
  apply (forBatches_from (chunkCount (length documents) (Z.to_nat batchSize)) 0);
    [assumption | reflexivity | assumption].
Qed.
End ForBatchesFacts.

(* ================================================================= *)
(** ** Trimming and blank documents *)

Lemma trimStart_empty (s : string) :
  JS.trimStart s = EmptyString <-> whitespaceOnly s = true.
Proof.
  unfold whitespaceOnly. induction s as [| c r IH]; simpl; [now split | ].
  destruct (JS.isWhiteSpace c); simpl; [exact IH | split; discriminate].
Qed.

Lemma trimEnd_empty (s : string) :
  JS.trimEnd s = EmptyString <-> whitespaceOnly s = true.
Proof.
  unfold whitespaceOnly. induction s as [| c r IH]; simpl; [now split | ].
  destruct (JS.trimEnd r) as [| c' r'].
  - destruct (JS.isWhiteSpace c); simpl.
    + split; [intros _; now apply IH | reflexivity].
    + split; discriminate.
  - split; [discriminate | ]. intros H. apply andb_true_iff in H.
    destruct H as [_ H]. apply IH in H. discriminate.
Qed.

Lemma trimStart_head (s : string) (c : ascii) (r : string) :
  JS.trimStart s = String c r -> JS.isWhiteSpace c = false.
Proof.
  induction s as [| c' r' IH]; simpl; [discriminate | ].
  destruct (JS.isWhiteSpace c') eqn:Hc; [exact IH | ].
  intros H. injection H as <- _. exact Hc.
Qed.

Lemma trim_empty (s : string) :
  JS.trim s = EmptyString <-> whitespaceOnly s = true.
Proof.
  unfold JS.trim. split.
  - intros H. apply trimEnd_empty in H.
    destruct (JS.trimStart s) as [| c r] eqn:Hstart; [now apply trimStart_empty | ].
    apply trimStart_head in Hstart. unfold whitespaceOnly in H. simpl in H.
    rewrite Hstart in H. discriminate.
  - intros H. apply trimStart_empty in H. now rewrite H.
Qed.

(** The test of the code, [doc && doc.trim()], fails exactly on the
    blank documents. *)
Lemma nonBlank_false (doc : Document) : nonBlank doc = false <-> blank doc.
Proof.
  destruct doc as [s | ]; simpl; [ | now split].
  rewrite <- trim_empty. split.
  - intros H. apply andb_false_iff in H. destruct H as [H | H].
    + destruct s; [reflexivity | discriminate].
    + destruct (JS.trim s); [reflexivity | discriminate].
  - intros H. rewrite H. apply andb_false_r.
Qed.

Lemma nonBlank_false_trim (s : string) :
  nonBlank (Some s) = false <-> JS.trim s = EmptyString.
Proof. rewrite nonBlank_false. simpl. symmetry. apply trim_empty. Qed.

(* ================================================================= *)
(** ** Frames and logs *)

Lemma logged_nil (w : World) : logged w [] = w.
Proof. destruct w. unfold logged. simpl. now rewrite app_nil_r. Qed.

Lemma logged_logged (w : World) (a b : list (EmbeddingRequest * Response)) :
  logged (logged w a) b = logged w (a ++ b).
Proof. unfold logged. simpl. now rewrite app_assoc. Qed.

Lemma grown_nil (f : Frame) : grown f [] [] = f.
Proof. destruct f. unfold grown. simpl. now rewrite app_nil_r, logged_nil. Qed.

Lemma grown_grown (f : Frame) (o1 o2 : list Embedding)
    (n1 n2 : list (EmbeddingRequest * Response)) :
  grown (grown f o1 n1) o2 n2 = grown f (o1 ++ o2) (n1 ++ n2).
Proof. unfold grown. simpl. now rewrite logged_logged, app_assoc. Qed.

Lemma push_grown (e : Embedding) (f : Frame) : push e f = grown f [e] [].
Proof. unfold push, grown. now rewrite logged_nil. Qed.

Lemma doEmbeddingWithRetry_logged (client : OpenAIEmbeddings)
    (req : EmbeddingRequest) (w : World) :
  doEmbeddingWithRetry client req w
  = (embeddingWithRetry client (length (called w)) req,
     logged w [(req, embeddingWithRetry client (length (called w)) req)]).
Proof. reflexivity. Qed.

Lemma aligned_incl (a b : list (EmbeddingRequest * Response)) (doc : Document)
    (e : Embedding) :
  incl a b -> aligned a doc e -> aligned b doc e.
Proof.
  intros Hab. unfold aligned. destruct doc as [s | ]; [ | exact (fun H => H)].
  destruct (nonBlank (Some s)); [ | exact (fun H => H)].
  intros [[req [data [k [item [Hin H]]]]] | [He [req [response [Hin H]]]]].
  - left. exists req, data, k, item. split; [apply Hab, Hin | exact H].
  - right. split; [exact He | ]. exists req, response. split; [apply Hab, Hin | exact H].
Qed.

Lemma Forall2_aligned_incl (a b : list (EmbeddingRequest * Response))
    (docs : list Document) (out : list Embedding) :
  incl a b -> Forall2 (aligned a) docs out -> Forall2 (aligned b) docs out.
Proof.
  intros Hab H. induction H; constructor; [eapply aligned_incl; eassumption | assumption].
Qed.

Lemma aligned_blank (calls : list (EmbeddingRequest * Response)) (doc : Document) :
  nonBlank doc = false -> aligned calls doc emptyEmbedding.
Proof.
  intros Hb. unfold aligned. destruct doc as [s | ]; [ | reflexivity].
  now rewrite Hb.
Qed.

Lemma skipn_cons_nth {A : Type} (n : nat) (l : list A) (x : A) (t : list A) :
  skipn n l = x :: t -> nth_error l n = Some x /\ skipn (S n) l = t.
Proof.
  revert l. induction n as [| n IH]; intros l H.
  - simpl in H. subst l. now split.
  - destruct l as [| y l]; [discriminate | ]. simpl in H. now apply IH.
Qed.

(* ================================================================= *)
(** ** One batch *)

Lemma filter_nil_blank (batch : list Document) :
  filter nonBlank batch = [] -> Forall (fun doc => nonBlank doc = false) batch.
Proof.
  induction batch as [| doc rest IH]; simpl; intros H; [constructor | ].
  destruct (nonBlank doc) eqn:Hdoc; [discriminate | ].
  constructor; [exact Hdoc | exact (IH H)].
Qed.

Lemma nonBlank_string (doc : Document) :
  nonBlank doc = true -> exists s, doc = Some s.
Proof. destruct doc as [s | ]; [now exists s | discriminate]. Qed.

Lemma mapBack_full (submitted : list string) (data : list EmbeddingItem)
    (batch : list Document) :
  length submitted <= length data ->
  forall (validIndex : nat) (f : Frame),
    skipn validIndex submitted = stringsOf (filter nonBlank batch) ->
    exists out,
      mapBack data batch validIndex f = (None, grown f out [])
      /\ Forall2 (mapped submitted data) batch out.
Proof.
  intros Hlen. induction batch as [| doc rest IH]; intros validIndex f Hskip.
  - exists []. simpl. rewrite grown_nil. split; [reflexivity | constructor].
  - simpl in *. destruct (nonBlank doc) eqn:Hdoc.
    + destruct (nonBlank_string _ Hdoc) as [s ->]. simpl in Hskip.
      apply skipn_cons_nth in Hskip. destruct Hskip as [Hnth Hskip].
      destruct (nth_error data validIndex) as [item | ] eqn:Hitem.
      * destruct (IH (S validIndex) (push (embedding item) f) Hskip) as [out [Hrun Hall]].
        exists (embedding item :: out). split.
        -- rewrite Hrun, push_grown, grown_grown. reflexivity.
        -- constructor; [ | exact Hall]. unfold mapped. rewrite Hdoc.
           exists s, validIndex, item. repeat split; assumption.
      * apply nth_error_None in Hitem.
        assert (validIndex < length submitted)
          by (apply nth_error_Some; congruence).
        lia.
    + destruct (IH validIndex (push emptyEmbedding f) Hskip) as [out [Hrun Hall]].
      exists (emptyEmbedding :: out). split.
      * rewrite Hrun, push_grown, grown_grown. reflexivity.
      * constructor; [ | exact Hall]. unfold mapped. now rewrite Hdoc.
Qed.

Section ProviderFacts.
Variable client : OpenAIEmbeddings.
Variable model : string.
Variable encodingFormat : EncodingFormat.

Let individually := embedIndividually client model encodingFormat.
Let process := processBatch client model encodingFormat.
Let req := request model encodingFormat.

Lemma embedIndividually_aligned (batch : list Document) :
  forall f : Frame,
    exists out new,
      individually batch f = grown f out new /\ Forall2 (aligned new) batch out.
Proof.
  induction batch as [| doc rest IH]; intros f.
  - exists [], []. unfold individually. simpl. rewrite grown_nil.
    split; [reflexivity | constructor].
  - destruct doc as [s | ]; unfold individually; simpl; fold individually.
    + destruct (JS.truthy s && JS.truthy (JS.trim s)) eqn:Hdoc.
      * set (r := embeddingWithRetry client (length (called (world f))) (request model encodingFormat (Single s))).
        set (f1 := {| results := results f;
                      world := {| fetched := fetched (world f);
                                  called := called (world f) ++ [(request model encodingFormat (Single s), r)] |} |}).
        assert (Hf1 : f1 = grown f [] [(req (Single s), r)])
          by (unfold f1, grown, logged, req; now rewrite app_nil_r).
        clearbody f1.
        destruct r as [[| item data] | e] eqn:Hr.
        -- destruct (IH (push emptyEmbedding f1)) as [out [new [Hrun Hall]]].
           exists (emptyEmbedding :: out), ((req (Single s), Resolved []) :: new). split.
           ++ rewrite Hrun, push_grown, Hf1, !grown_grown. reflexivity.
           ++ constructor.
              ** unfold aligned, nonBlank. rewrite Hdoc. right. split; [reflexivity | ].
                 exists (req (Single s)), (Resolved []).
                 split; [now left | split; [reflexivity | now left]].
              ** eapply Forall2_aligned_incl; [ | exact Hall]. apply incl_tl, incl_refl.
        -- destruct (IH (push (embedding item) f1)) as [out [new [Hrun Hall]]].
           exists (embedding item :: out), ((req (Single s), Resolved (item :: data)) :: new).
           split.
           ++ rewrite Hrun, push_grown, Hf1, !grown_grown. reflexivity.
           ++ constructor.
              ** unfold aligned, nonBlank. rewrite Hdoc. left.
                 exists (req (Single s)), (item :: data), 0, item.
                 repeat split. now left.
              ** eapply Forall2_aligned_incl; [ | exact Hall]. apply incl_tl, incl_refl.
        -- destruct (IH (push emptyEmbedding f1)) as [out [new [Hrun Hall]]].
           exists (emptyEmbedding :: out), ((req (Single s), Rejected e) :: new). split.
           ++ rewrite Hrun, push_grown, Hf1, !grown_grown. reflexivity.
           ++ constructor.
              ** unfold aligned, nonBlank. rewrite Hdoc. right. split; [reflexivity | ].
                 exists (req (Single s)), (Rejected e).
                 split; [now left | split; [reflexivity | right; now exists e]].
              ** eapply Forall2_aligned_incl; [ | exact Hall]. apply incl_tl, incl_refl.
      * destruct (IH (push emptyEmbedding f)) as [out [new [Hrun Hall]]].
        exists (emptyEmbedding :: out), new. split.
        -- rewrite Hrun, push_grown, grown_grown. reflexivity.
        -- constructor; [now apply aligned_blank | exact Hall].
    + destruct (IH (push emptyEmbedding f)) as [out [new [Hrun Hall]]].
      exists (emptyEmbedding :: out), new. split.
      * rewrite Hrun, push_grown, grown_grown. reflexivity.
      * constructor; [now apply aligned_blank | exact Hall].
Qed.

Lemma mapped_aligned (submitted : list string) (data : list EmbeddingItem)
    (calls : list (EmbeddingRequest * Response))
    (batch : list Document) (out : list Embedding) :
  In (req (Many submitted), Resolved data) calls ->
  Forall2 (mapped submitted data) batch out -> Forall2 (aligned calls) batch out.
Proof.
  intros Hin H. induction H as [| doc e batch out Hm _ IH]; constructor; [ | exact IH].
  unfold mapped in Hm. destruct (nonBlank doc) eqn:Hdoc.
  - destruct Hm as [s [k [item [-> [Hs [Hitem He]]]]]].
    unfold aligned. rewrite Hdoc. left.
    exists (req (Many submitted)), data, k, item. repeat split; assumption.
  - subst e. now apply aligned_blank.
Qed.

(** With answers in full, a batch adds one entry per document to the
    results, each aligned with its document by the requests of the batch. *)
Lemma processBatch_aligned (batch : list Document) (f : Frame) :
  answersInFull client ->
  exists out new,
    process batch f = grown f out new /\ Forall2 (aligned new) batch out.
Proof.
  intros Hfull. unfold process, processBatch.
  destruct (filter nonBlank batch) as [| d valid] eqn:Hvalid.
  - exists (map (fun _ => emptyEmbedding) batch), []. split.
    + unfold grown. now rewrite logged_nil.
    + apply filter_nil_blank in Hvalid.
      induction Hvalid as [| doc rest Hdoc _ IH]; simpl; constructor;
        [now apply aligned_blank | exact IH].
  - rewrite doEmbeddingWithRetry_logged.
    set (submitted := stringsOf (d :: valid)).
    set (r := embeddingWithRetry client (length (called (world f)))
                (request model encodingFormat (Many submitted))).
    set (f1 := {| results := results f;
                  world := logged (world f)
                             [(request model encodingFormat (Many submitted), r)] |}).
    assert (Hf1 : f1 = grown f [] [(req (Many submitted), r)])
      by (unfold f1, grown, req; now rewrite app_nil_r).
    destruct r as [data | e] eqn:Hr.
    + assert (Hlen : length submitted <= length data)
        by (apply (Hfull (length (called (world f)))
                     (request model encodingFormat (Many submitted)));
            [reflexivity | exact Hr]).
      destruct (mapBack_full submitted data batch Hlen 0 f1) as [out [Hrun Hall]];
        [simpl; now rewrite Hvalid | ].
      rewrite Hrun. exists out, [(req (Many submitted), Resolved data)]. split.
      * rewrite Hf1, grown_grown. now rewrite app_nil_r.
      * eapply mapped_aligned; [ | exact Hall]. now left.
    + destruct (embedIndividually_aligned batch f1) as [out [new [Hrun Hall]]].
      exists out, ((req (Many submitted), Rejected e) :: new). split.
      * unfold individually in Hrun. rewrite Hrun, Hf1, grown_grown. reflexivity.
      * eapply Forall2_aligned_incl; [ | exact Hall]. apply incl_tl, incl_refl.
Qed.

(** The same over the batches of a run, in order. *)
Lemma batches_aligned (bs : list (list Document)) :
  answersInFull client ->
  forall f : Frame,
    exists out new,
      fold_left (fun f batch => process batch f) bs f = grown f out new
      /\ Forall2 (aligned new) (concat bs) out.
Proof.
  intros Hfull. induction bs as [| batch bs IH]; intros f; simpl.
  - exists [], []. rewrite grown_nil. split; [reflexivity | constructor].
  - destruct (processBatch_aligned batch f Hfull) as [o1 [n1 [H1 A1]]].
    destruct (IH (process batch f)) as [o2 [n2 [H2 A2]]].
    exists (o1 ++ o2), (n1 ++ n2). split.
    + rewrite H2, H1, grown_grown. reflexivity.
    + apply Forall2_app.
      * eapply Forall2_aligned_incl; [ | exact A1]. apply incl_appl, incl_refl.
      * eapply Forall2_aligned_incl; [ | exact A2]. apply incl_appr, incl_refl.
Qed.

End ProviderFacts.

(* ================================================================= *)
(** ** A whole run of [embedDocuments] *)

Section RunFacts.
Variable client : OpenAIEmbeddings.
Variable baseUrl : string.
Variable credentials : Credentials.t.
Variable model : string.
Variable encodingFormat : EncodingFormat.
Variable batchSize : Z.

Let run := embedDocuments client baseUrl credentials model encodingFormat batchSize.
Let process := processBatch client model encodingFormat.

(** Past the two guards, a run with a positive batch size is the fold of
    the loop body over the chunks of the input. *)
Lemma embedDocuments_fold (fuel : nat) (documents : list Document) (w : World) :
  documents <> [] -> (1 <= batchSize)%Z ->
  construct client (clientFields baseUrl credentials model) = None ->
  length documents < fuel ->
  run fuel (Some documents) w
  = let f := fold_left (fun f batch => process batch f) (batches batchSize documents)
                       {| results := []; world := w |} in
    (Returned (results f), world f).
Proof.
  intros Hne HB Hctor Hfuel. unfold run, embedDocuments.
  destruct documents as [| d rest]; [congruence | ].
  rewrite Hctor.
  rewrite forBatches_all; [reflexivity | exact HB | ].
  eapply Nat.le_lt_trans; [apply chunkCount_le; lia | exact Hfuel].
Qed.

Lemma embedDocuments_run (fuel : nat) (documents : list Document) (w : World) :
  documents <> [] -> (1 <= batchSize)%Z ->
  construct client (clientFields baseUrl credentials model) = None ->
  answersInFull client ->
  length documents < fuel ->
  exists result new,
    run fuel (Some documents) w = (Returned result, logged w new)
    /\ Forall2 (aligned new) documents result.
Proof.
  intros Hne HB Hctor Hfull Hfuel.
  rewrite embedDocuments_fold by assumption.
  destruct (batches_aligned client model encodingFormat (batches batchSize documents)
              Hfull {| results := []; world := w |}) as [out [new [Hrun Hall]]].
  exists out, new. cbv zeta. unfold process. rewrite Hrun. split; [reflexivity | ].
  unfold batches in Hall. rewrite concat_chunks in Hall by lia. exact Hall.
Qed.

Lemma embedDocuments_stuck (fuel : nat) (documents : list Document) (w : World) :
  documents <> [] -> (batchSize <= 0)%Z ->
  construct client (clientFields baseUrl credentials model) = None ->
  run fuel (Some documents) w = (Diverged, w).
Proof.
  intros Hne HB Hctor. unfold run, embedDocuments.
  destruct documents as [| d rest]; [congruence | ].
  rewrite Hctor.
  rewrite forBatches_stuck; [reflexivity | exact HB | lia | exact Hne].
Qed.
End RunFacts.

Lemma Forall2_nth {A B : Type} (R : A -> B -> Prop) (l : list A) (l' : list B) :
  Forall2 R l l' ->
  forall i a, nth_error l i = Some a -> exists b, nth_error l' i = Some b /\ R a b.
Proof.
  intros H. induction H as [| x y l l' Hxy _ IH]; intros i a Hi.
  - destruct i; discriminate.
  - destruct i as [| i]; simpl in *.
    + injection Hi as <-. now exists y.
    + now apply IH.
Qed.

Lemma aligned_unanswered (calls : list (EmbeddingRequest * Response))
    (s : string) (e : Embedding) :
  aligned calls (Some s) e -> unanswered calls s -> e = emptyEmbedding.
Proof.
  unfold aligned. destruct (nonBlank (Some s)); [ | easy].
  intros [[req [data [k [item [Hin [Hc [Hitem _]]]]]]] | [He _]] Hun; [ | exact He].
  specialize (Hun req (Resolved data) k Hin Hc). simpl in Hun. congruence.
Qed.

Lemma aligned_requested (calls : list (EmbeddingRequest * Response))
    (doc : Document) (e : Embedding) :
  aligned calls doc e -> nonBlank doc = true ->
  exists s req response k,
    doc = Some s /\ In (req, response) calls /\ carries req k s.
Proof.
  unfold aligned. intros H Hdoc. destruct doc as [s | ]; [ | discriminate].
  rewrite Hdoc in H. exists s.
  destruct H as [[req [data [k [item [Hin [Hc _]]]]]] | [_ [req [response [Hin [Hs _]]]]]].
  - exists req, (Resolved data), k. now repeat split.
  - exists req, response, 0. repeat split; [exact Hin | ].
    unfold carries. rewrite Hs. now split.
Qed.


Lemma rejecting_in_full : answersInFull rejecting.
Proof. intros n req ts data _ Hdata. discriminate. Qed.

(* ================================================================= *)
(** ** Blank documents *)

Lemma blank_filter (batch : list Document) :
  Forall (fun doc => nonBlank doc = false) batch -> filter nonBlank batch = [].
Proof.
  intros H. induction H as [| doc rest Hdoc _ IH]; simpl; [reflexivity | ].
  now rewrite Hdoc.
Qed.

Lemma processBatch_blank (client : OpenAIEmbeddings) (model : string)
    (encodingFormat : EncodingFormat) (batch : list Document) (f : Frame) :
  Forall (fun doc => nonBlank doc = false) batch ->
  processBatch client model encodingFormat batch f
  = grown f (map (fun _ => emptyEmbedding) batch) [].
Proof.
  intros H. unfold processBatch. rewrite (blank_filter _ H).
  unfold grown. now rewrite logged_nil.
Qed.

Lemma batches_blank (client : OpenAIEmbeddings) (model : string)
    (encodingFormat : EncodingFormat) (bs : list (list Document)) :
  Forall (fun doc => nonBlank doc = false) (concat bs) ->
  forall f : Frame,
    fold_left (fun f batch => processBatch client model encodingFormat batch f) bs f
    = grown f (map (fun _ => emptyEmbedding) (concat bs)) [].
Proof.
  induction bs as [| batch bs IH]; simpl; intros H f.
  - now rewrite grown_nil.
  - apply Forall_app in H. destruct H as [Hb Hbs].
    rewrite processBatch_blank by exact Hb.
    rewrite IH by exact Hbs.
    now rewrite grown_grown, map_app.
Qed.

(* ================================================================= *)
(** ** Claims about [embedDocuments] *)




(** X20.  [embedDocuments] raises exactly when the list is null or empty
    or the client constructor throws.  Past these guards, with a batch
    size of at least one, it returns whatever the requests do; when the
    answered requests are in full, every document has its entry, every
    non-blank document was submitted in some request of the run, and a
    document that no request answered has the empty list at its position. *)
Theorem embedDocuments_raises_only_at_the_guards
    (client : OpenAIEmbeddings) (baseUrl : string) (credentials : Credentials.t)
    (model : string) (encodingFormat : EncodingFormat) (batchSize : Z)
    (fuel : nat) (documents : option (list Document)) (w : World) :
  ((exists e,
       fst (embedDocuments client baseUrl credentials model encodingFormat batchSize
              fuel documents w) = Raised e)
   <-> (documents = None \/ documents = Some []
        \/ exists e, construct client (clientFields baseUrl credentials model) = Some e))
  /\ (forall docs,
        documents = Some docs -> docs <> [] -> (1 <= batchSize)%Z ->
        construct client (clientFields baseUrl credentials model) = None ->
        length docs < fuel ->
        exists result w',
          embedDocuments client baseUrl credentials model encodingFormat batchSize
            fuel documents w = (Returned result, w')
          /\ (answersInFull client ->
              exists new,
                w' = logged w new
                /\ Forall2 (aligned new) docs result
                /\ (forall i doc, nth_error docs i = Some doc -> nonBlank doc = true ->
                      exists s req response k,
                        doc = Some s /\ In (req, response) new /\ carries req k s)
                /\ (forall i s, nth_error docs i = Some (Some s) -> unanswered new s ->
                      nth_error result i = Some emptyEmbedding))).
Proof.
  split.
  - unfold embedDocuments. split.
    + intros [e He]. destruct documents as [[| d rest] | ]; [now right; left | | now left].
      destruct (construct client (clientFields baseUrl credentials model)) as [e' | ];
        [right; right; now exists e' | ].
      destruct (forBatches _ _ _ _ _ _); discriminate.
    + intros [-> | [-> | [e He]]]; [eexists; reflexivity | eexists; reflexivity | ].
      destruct documents as [[| d rest] | ]; [eexists; reflexivity | | eexists; reflexivity].
      rewrite He. eexists; reflexivity.
  - intros docs -> Hne HB Hctor Hfuel.
    rewrite embedDocuments_fold by assumption. cbv zeta.
    eexists. eexists. split; [reflexivity | ].
    intros Hfull.
    destruct (embedDocuments_run client baseUrl credentials model encodingFormat
                batchSize fuel docs w Hne HB Hctor Hfull Hfuel)
      as [result [new [Hrun Hall]]].
    rewrite embedDocuments_fold in Hrun by assumption. cbv zeta in Hrun.
    injection Hrun as Hres Hw. rewrite Hres, Hw.
    exists new. split; [reflexivity | ]. split; [exact Hall | ]. split.
    + intros i doc Hi Hdoc.
      destruct (Forall2_nth _ _ _ Hall i doc Hi) as [e [_ Ha]].
      exact (aligned_requested _ _ _ Ha Hdoc).
    + intros i s Hi Hun.
      destruct (Forall2_nth _ _ _ Hall i (Some s) Hi) as [e [He Ha]]. rewrite He. f_equal.
      exact (aligned_unanswered _ _ _ Ha Hun).
Qed.

Lemma embedDocuments_raises_only_at_the_guards_witness :
  exists result new,
    embedDocuments rejecting "http://localhost:1234/v1" localCredentials
      "nomic-embed-text" Float 2 4 (Some [Some "a"; Some "b"; Some "c"]) emptyWorld
    = (Returned result, logged emptyWorld new)
    /\ Forall2 (aligned new) [Some "a"; Some "b"; Some "c"] result
    /\ (forall i doc, nth_error [Some "a"; Some "b"; Some "c"] i = Some doc ->
          nonBlank doc = true ->
          exists s req response k,
            doc = Some s /\ In (req, response) new /\ carries req k s)
    /\ (forall i s, nth_error [Some "a"; Some "b"; Some "c"] i = Some (Some s) ->
          unanswered new s -> nth_error result i = Some emptyEmbedding).
Proof.
  destruct (proj2 (embedDocuments_raises_only_at_the_guards rejecting
                     "http://localhost:1234/v1" localCredentials "nomic-embed-text"
                     Float 2 4 (Some [Some "a"; Some "b"; Some "c"]) emptyWorld)
              [Some "a"; Some "b"; Some "c"] eq_refl)
    as [result [w' [Hrun Hfull]]].
  - discriminate.
  - lia.
  - reflexivity.
  - simpl. lia.
  - destruct (Hfull rejecting_in_full) as [new [Hw H]].
    exists result, new. rewrite <- Hw. split; [exact Hrun | exact H].
Defined.

(** C5, as amended.  For a non-empty list of blank documents, a batch
    size of at least one and a client that was constructed,
    [embedDocuments] returns as many empty lists as there are documents
    and leaves the log of requests as it was. *)
Theorem embedDocuments_all_blank
    (client : OpenAIEmbeddings) (baseUrl : string) (credentials : Credentials.t)
    (model : string) (encodingFormat : EncodingFormat) (batchSize : Z)
    (fuel : nat) (documents : list Document) (w : World) :
  documents <> [] -> (1 <= batchSize)%Z ->
  construct client (clientFields baseUrl credentials model) = None ->
  length documents < fuel ->
  Forall blank documents ->
  embedDocuments client baseUrl credentials model encodingFormat batchSize
    fuel (Some documents) w
  = (Returned (repeat emptyEmbedding (length documents)), w).
Proof.
  intros Hne HB Hctor Hfuel Hblank.
  assert (Hb : Forall (fun doc => nonBlank doc = false) documents)
    by (eapply Forall_impl; [ | exact Hblank]; intros doc; apply nonBlank_false).
  clear Hblank. rename Hb into Hblank.
  rewrite embedDocuments_fold by assumption. cbv zeta.
  rewrite batches_blank
    by (unfold batches; rewrite concat_chunks by lia; exact Hblank).
  unfold batches. rewrite concat_chunks by lia.
  unfold grown. simpl. now rewrite logged_nil, map_const.
Qed.

Lemma embedDocuments_all_blank_witness :
  embedDocuments rejecting "http://localhost:1234/v1" localCredentials
    "nomic-embed-text" Float 2 4 (Some [None; Some ""; Some "  "]) emptyWorld
  = (Returned (repeat emptyEmbedding 3), emptyWorld).
Proof.
  apply (embedDocuments_all_blank rejecting "http://localhost:1234/v1" localCredentials
           "nomic-embed-text" Float 2 4 [None; Some ""; Some "  "] emptyWorld).
  - discriminate.
  - lia.
  - reflexivity.
  - simpl. lia.
  - repeat constructor.
Defined.

(** C5, as stated, fails on the empty list, whose items are all blank:
    the call raises instead of returning an empty list.  It also needs a
    positive batch size and a client that was constructed. *)
Lemma embedDocuments_blank_needs_documents :
  embedDocuments (answering echo) "http://localhost:1234/v1" localCredentials
    "nomic-embed-text" Float 10 1 (Some []) emptyWorld
  = (Raised (JS.Error "No documents provided"), emptyWorld)
  /\ Forall blank []
  /\ (forall fuel,
        fst (embedDocuments (answering echo) "http://localhost:1234/v1" localCredentials
               "nomic-embed-text" Float 0 fuel (Some [Some ""]) emptyWorld) = Diverged)
  /\ embedDocuments unconfigured "http://localhost:1234/v1" localCredentials
       "nomic-embed-text" Float 10 2 (Some [Some ""]) emptyWorld
     = (Raised (JS.Error "Error generating document embeddings: OpenAI or Azure OpenAI API key not found"),
        emptyWorld).
Proof.
  split; [reflexivity | ]. split; [constructor | ]. split; [ | reflexivity].
  intros fuel. rewrite embedDocuments_stuck; [reflexivity | discriminate | lia | reflexivity].
Qed.

(* ================================================================= *)
(** ** The chunk loop *)

(** C9.  For a non-empty list and a batch size of at least one, the loop
    stops once it has more fuel than chunks: it applies its body to the
    [ceil(N/B)] chunks of the list in order, each of one to [B] items,
    which put end to end are the list.  For a batch size that is not
    positive the index never passes zero and the loop does not stop,
    whatever the fuel. *)
Theorem chunk_loop_terminates
    (S : Type) (body : list Document -> S -> S)
    (documents : list Document) (batchSize : Z) (s : S) :
  documents <> [] ->
  ((1 <= batchSize)%Z ->
     let B := Z.to_nat batchSize in
     let N := length documents in
     (forall fuel, chunkCount N B < fuel ->
        forBatches documents batchSize body fuel 0%Z s
        = Some (fold_left (fun s batch => body batch s) (batches batchSize documents) s))
     /\ length (batches batchSize documents) = chunkCount N B
     /\ (chunkCount N B - 1) * B < N <= chunkCount N B * B
     /\ concat (batches batchSize documents) = documents
     /\ (forall k, k < chunkCount N B ->
           nth_error (batches batchSize documents) k
           = Some (firstn B (skipn (k * B) documents)))
     /\ Forall (fun batch => 1 <= length batch <= B) (batches batchSize documents))
  /\ ((batchSize <= 0)%Z ->
      forall fuel i, (i <= 0)%Z -> forBatches documents batchSize body fuel i s = None).
Proof.
  intros Hne. split.
  - intros HB B N.
    assert (HB1 : 1 <= B) by (unfold B; lia).
    assert (HN : 1 <= N) by (unfold N; destruct documents; [congruence | simpl; lia]).
    split; [ | split; [ | split; [ | split; [ | split]]]].
    + intros fuel Hfuel. now apply forBatches_all.
    + apply length_chunks.
    + split.
      * assert (Hc : chunkCount N B - 1 < chunkCount N B).
        { assert (0 < chunkCount N B) by (apply chunkCount_lt; lia). lia. }
        now apply chunkCount_lt in Hc.
      * now apply chunkCount_covers.
    + now apply concat_chunks.
    + intros k Hk. unfold batches, chunks. fold B. fold N.
      rewrite nth_error_map, nth_error_nth' with (d := 0) by (now rewrite length_seq).
      rewrite seq_nth by exact Hk. reflexivity.
    + now apply chunks_bounds.
  - intros HB fuel i Hi. now apply forBatches_stuck.
Qed.

Lemma chunk_loop_terminates_witness :
  forBatches [Some "hello"; Some ""; Some "world"] 2
    (fun batch (seen : list (list Document)) => seen ++ [batch]) 3 0%Z []
  = Some [[Some "hello"; Some ""]; [Some "world"]]
  /\ chunkCount 3 2 = 2
  /\ forBatches [Some "hello"; Some ""; Some "world"] 0
       (fun batch (seen : list (list Document)) => seen ++ [batch]) 1000 0%Z []
     = None.
Proof.
  destruct (chunk_loop_terminates (list (list Document))
              (fun batch seen => seen ++ [batch])
              [Some "hello"; Some ""; Some "world"] 2 []) as [Hpos _]; [discriminate | ].
  destruct (chunk_loop_terminates (list (list Document))
              (fun batch seen => seen ++ [batch])
              [Some "hello"; Some ""; Some "world"] 0 []) as [_ Hstuck]; [discriminate | ].
  split; [ | split].
  - destruct (Hpos ltac:(lia)) as [Hrun _]. apply (Hrun 3). simpl. lia.
  - reflexivity.
  - apply Hstuck; lia.
Defined.

(* ================================================================= *)
(** ** Batches whose requests are answered *)

Lemma expected_blank (emb : string -> Embedding) (doc : Document) :
  nonBlank doc = false -> expected emb doc = emptyEmbedding.
Proof. intros H. unfold expected. destruct doc; [now rewrite H | reflexivity]. Qed.

Lemma map_expected_blank (emb : string -> Embedding) (batch : list Document) :
  Forall (fun doc => nonBlank doc = false) batch ->
  map (expected emb) batch = map (fun _ => emptyEmbedding) batch.
Proof.
  intros H. induction H as [| doc rest Hdoc _ IH]; simpl; [reflexivity | ].
  now rewrite IH, expected_blank.
Qed.

Lemma mapped_expected (emb : string -> Embedding) (submitted : list string)
    (data : list EmbeddingItem) (batch : list Document) (out : list Embedding) :
  map embedding data = map emb submitted ->
  Forall2 (mapped submitted data) batch out -> out = map (expected emb) batch.
Proof.
  intros Hdata H. induction H as [| doc e batch out Hm _ IH]; simpl; [reflexivity | ].
  rewrite <- IH. f_equal. unfold mapped in Hm.
  destruct (nonBlank doc) eqn:Hdoc.
  - destruct Hm as [s [k [item [-> [Hs [Hitem <-]]]]]].
    unfold expected. rewrite Hdoc.
    apply (map_nth_error embedding) in Hitem. apply (map_nth_error emb) in Hs.
    rewrite Hdata in Hitem. congruence.
  - subst e. now rewrite expected_blank.
Qed.

Section AnsweredFacts.
Variable client : OpenAIEmbeddings.
Variable model : string.
Variable encodingFormat : EncodingFormat.
Variable emb : string -> Embedding.

Let req := request model encodingFormat.

(** A batched request answered with the embeddings of its strings. *)
Lemma processBatch_answered (batch : list Document) (f : Frame)
    (data : list EmbeddingItem) :
  let submitted := stringsOf (filter nonBlank batch) in
  filter nonBlank batch <> [] ->
  embeddingWithRetry client (length (called (world f))) (req (Many submitted))
  = Resolved data ->
  map embedding data = map emb submitted ->
  processBatch client model encodingFormat batch f
  = grown f (map (expected emb) batch) [(req (Many submitted), Resolved data)].
Proof.
  intros submitted Hne Hr Hdata. unfold processBatch.
  destruct (filter nonBlank batch) as [| d valid] eqn:Hvalid; [congruence | ].
  rewrite doEmbeddingWithRetry_logged. fold req. fold submitted. rewrite Hr.
  assert (Hlen : length submitted <= length data).
  { apply (f_equal (@length Embedding)) in Hdata. rewrite !length_map in Hdata. lia. }
  destruct (mapBack_full submitted data batch Hlen 0
              {| results := results f;
                 world := logged (world f) [(req (Many submitted), Resolved data)] |})
    as [out [Hrun Hall]]; [unfold submitted; now rewrite Hvalid | ].
  rewrite Hrun. rewrite (mapped_expected emb _ _ _ _ Hdata Hall).
  unfold grown. simpl. now rewrite logged_nil.
Qed.

(** The fallback when every request of a single string is answered. *)
Lemma embedIndividually_answered (batch : list Document) :
  forall f : Frame,
    (forall j s,
        nth_error (stringsOf (filter nonBlank batch)) j = Some s ->
        exists item rest,
          embeddingWithRetry client (length (called (world f)) + j) (req (Single s))
          = Resolved (item :: rest)
          /\ embedding item = emb s) ->
    results (embedIndividually client model encodingFormat batch f)
    = results f ++ map (expected emb) batch.
Proof.
  induction batch as [| doc rest IH]; intros f Hans.
  - simpl. now rewrite app_nil_r.
  - destruct doc as [s | ]; simpl.
    + simpl in Hans. destruct (JS.truthy s && JS.truthy (JS.trim s)) eqn:Hdoc.
      * destruct (Hans 0 s eq_refl) as [item [more [Hr He]]].
        rewrite Nat.add_0_r in Hr. fold req. rewrite Hr, IH.
        -- simpl. rewrite <- app_assoc. simpl. now rewrite He.
        -- intros j s' Hj. simpl. rewrite length_app. simpl.
           replace (length (called (world f)) + 1 + j)
             with (length (called (world f)) + S j) by lia.
           exact (Hans (S j) s' Hj).
      * rewrite IH by exact Hans. simpl. now rewrite <- app_assoc.
    + rewrite IH by exact Hans. simpl. now rewrite <- app_assoc.
Qed.

(** A rejected batched request followed by answered single requests. *)
Lemma processBatch_fallback (batch : list Document) (f : Frame) (e : JS.thrown) :
  let submitted := stringsOf (filter nonBlank batch) in
  let n := length (called (world f)) in
  embeddingWithRetry client n (req (Many submitted)) = Rejected e ->
  (forall j s,
      nth_error submitted j = Some s ->
      exists item rest,
        embeddingWithRetry client (n + 1 + j) (req (Single s)) = Resolved (item :: rest)
        /\ embedding item = emb s) ->
  results (processBatch client model encodingFormat batch f)
  = results f ++ map (expected emb) batch.
Proof.
  intros submitted n Hr Hans. unfold processBatch.
  destruct (filter nonBlank batch) as [| d valid] eqn:Hvalid.
  - simpl. f_equal. symmetry. apply map_expected_blank. now apply filter_nil_blank.
  - rewrite doEmbeddingWithRetry_logged. fold req. fold submitted. fold n. rewrite Hr.
    rewrite embedIndividually_answered; [reflexivity | ].
    intros j s Hj. simpl. rewrite length_app. simpl. fold n.
    apply Hans. rewrite Hvalid in Hj. exact Hj.
Qed.
End AnsweredFacts.

(** X21.  For a chunk whose batched request is rejected while the request
    of each of its non-blank items on its own is answered, the entries
    the chunk adds to the result are, one by one, those it adds when the
    batched request is answered with the same embedding per text. *)
Theorem fallback_matches_batched_answer
    (client client' : OpenAIEmbeddings) (model : string)
    (encodingFormat : EncodingFormat) (emb : string -> Embedding)
    (batch : list Document) (f f' : Frame) (e : JS.thrown)
    (data : list EmbeddingItem) :
  let submitted := stringsOf (filter nonBlank batch) in
  let n := length (called (world f)) in
  let n' := length (called (world f')) in
  filter nonBlank batch <> [] ->
  embeddingWithRetry client n (request model encodingFormat (Many submitted))
  = Rejected e ->
  (forall j s,
      nth_error submitted j = Some s ->
      exists item rest,
        embeddingWithRetry client (n + 1 + j) (request model encodingFormat (Single s))
        = Resolved (item :: rest)
        /\ embedding item = emb s) ->
  embeddingWithRetry client' n' (request model encodingFormat (Many submitted))
  = Resolved data ->
  map embedding data = map emb submitted ->
  exists portion,
    results (processBatch client model encodingFormat batch f) = results f ++ portion
    /\ results (processBatch client' model encodingFormat batch f') = results f' ++ portion
    /\ length portion = length batch
    /\ portion = map (expected emb) batch.
Proof.
  intros submitted n n' Hne Hrejected Hsingle Hresolved Hdata.
  exists (map (expected emb) batch). split; [ | split; [ | split]].
  - exact (processBatch_fallback client model encodingFormat emb batch f e
             Hrejected Hsingle).
  - rewrite (processBatch_answered client' model encodingFormat emb batch f' data
               Hne Hresolved Hdata).
    reflexivity.
  - apply length_map.
  - reflexivity.
Qed.

Lemma fallback_matches_batched_answer_witness :
  exists portion,
    results (processBatch (batchRejecting echo) "nomic-embed-text" Float
               [Some "hello"; Some ""; Some "world"] {| results := []; world := emptyWorld |})
    = [] ++ portion
    /\ results (processBatch (answering echo) "nomic-embed-text" Float
                  [Some "hello"; Some ""; Some "world"] {| results := []; world := emptyWorld |})
       = [] ++ portion
    /\ length portion = 3
    /\ portion = map (expected echo) [Some "hello"; Some ""; Some "world"].
Proof.
  apply (fallback_matches_batched_answer (batchRejecting echo) (answering echo)
           "nomic-embed-text" Float echo [Some "hello"; Some ""; Some "world"]
           {| results := []; world := emptyWorld |} {| results := []; world := emptyWorld |}
           (JS.Error "Request failed with status code 500")
           [ {| index := 0; embedding := echo "hello" |};
             {| index := 1; embedding := echo "world" |} ]).
  - discriminate.
  - reflexivity.
  - intros j s Hj. simpl. eexists. eexists. split; reflexivity.
  - reflexivity.
  - reflexivity.
Defined.

(** C6.  On the list of "hello", the empty string and "world", with
    batch size 2 and a client that was constructed and answers every
    request: the chunks are "hello" with the empty string, and "world"
    alone; one request is issued per chunk, with the non-blank items
    only; the result is the embedding of "hello", an empty list, the
    embedding of "world". *)
Theorem hello_blank_world_scenario
    (client : OpenAIEmbeddings) (baseUrl : string) (credentials : Credentials.t)
    (model : string) (encodingFormat : EncodingFormat)
    (emb : string -> Embedding) (fuel : nat) (w : World) :
  construct client (clientFields baseUrl credentials model) = None ->
  answersWith emb client ->
  3 < fuel ->
  batches 2 [Some "hello"; Some ""; Some "world"]
  = [[Some "hello"; Some ""]; [Some "world"]]
  /\ exists r1 r2,
      embedDocuments client baseUrl credentials model encodingFormat 2 fuel
        (Some [Some "hello"; Some ""; Some "world"]) w
      = (Returned [emb "hello"; emptyEmbedding; emb "world"],
         logged w [(request model encodingFormat (Many ["hello"]), r1);
                   (request model encodingFormat (Many ["world"]), r2)]).
Proof.
  intros Hctor Hans Hfuel. split; [reflexivity | ].
  rewrite embedDocuments_fold; [ | discriminate | lia | exact Hctor | exact Hfuel].
  cbv zeta.
  change (batches 2 [Some "hello"; Some ""; Some "world"])
    with [[Some "hello"; Some ""]; [Some "world"]].
  simpl fold_left.
  destruct (Hans (length (called w)) (request model encodingFormat (Many ["hello"])))
    as [d1 [Hr1 Hd1]].
  rewrite (processBatch_answered client model encodingFormat emb
             [Some "hello"; Some ""] {| results := []; world := w |} d1);
    [ | discriminate | exact Hr1 | exact Hd1].
  set (f1 := grown _ _ _).
  destruct (Hans (length (called (world f1))) (request model encodingFormat (Many ["world"])))
    as [d2 [Hr2 Hd2]].
  rewrite (processBatch_answered client model encodingFormat emb
             [Some "world"] f1 d2); [ | discriminate | exact Hr2 | exact Hd2].
  exists (Resolved d1), (Resolved d2). unfold f1. rewrite grown_grown. reflexivity.
Qed.

Lemma answering_answers (emb : string -> Embedding) : answersWith emb (answering emb).
Proof.
  intros n req. eexists. split; [reflexivity | ].
  rewrite map_map. simpl.
  generalize (submittedBy req). intros l. generalize 0.
  induction l as [| s l IH]; intros k; simpl; [reflexivity | ].
  now rewrite IH.
Qed.

Lemma hello_blank_world_scenario_witness :
  batches 2 [Some "hello"; Some ""; Some "world"]
  = [[Some "hello"; Some ""]; [Some "world"]]
  /\ exists r1 r2,
      embedDocuments (answering echo) "http://localhost:1234/v1" localCredentials
        "nomic-embed-text" Float 2 4 (Some [Some "hello"; Some ""; Some "world"]) emptyWorld
      = (Returned [echo "hello"; emptyEmbedding; echo "world"],
         logged emptyWorld
           [(request "nomic-embed-text" Float (Many ["hello"]), r1);
            (request "nomic-embed-text" Float (Many ["world"]), r2)]).
Proof.
  apply (hello_blank_world_scenario (answering echo) "http://localhost:1234/v1"
           localCredentials "nomic-embed-text" Float echo 4 emptyWorld).
  - reflexivity.
  - apply answering_answers.
  - lia.
Defined.

(* ================================================================= *)
(** ** Claims about [embedQuery] *)

Section EmbedQueryFacts.
Variable client : OpenAIEmbeddings.
Variable baseUrl : string.
Variable credentials : Credentials.t.
Variable model : string.
Variable encodingFormat : EncodingFormat.

Let query := embedQuery client baseUrl credentials model encodingFormat.
Let wrap : JS.thrown -> Outcome Embedding :=
  fun e => Raised (JS.Error ("Error generating embedding: " ++ JS.messageOf e)%string).

Lemma embedQuery_blank (text : Document) (w : World) :
  nonBlank text = false ->
  query text w = (Raised (JS.Error "Text content is empty"), w).
Proof.
  unfold query, embedQuery. destruct text as [s | ]; [ | reflexivity].
  rewrite <- negb_andb. change (JS.truthy s && JS.truthy (JS.trim s)) with (nonBlank (Some s)).
  now intros ->.
Qed.

Lemma embedQuery_nonBlank (s : string) (w : World) :
  nonBlank (Some s) = true ->
  query (Some s) w
  = match construct client (clientFields baseUrl credentials model) with
    | Some e => (wrap e, w)
    | None =>
        let response :=
          embeddingWithRetry client (length (called w))
            (request model encodingFormat (Single s)) in
        (match response with
         | Resolved (item :: _) => Returned (embedding item)
         | Resolved [] => wrap readOfUndefined
         | Rejected e => wrap e
         end,
         logged w [(request model encodingFormat (Single s), response)])
    end.
Proof.
  intros Hs. unfold query, embedQuery.
  rewrite <- negb_andb. change (JS.truthy s && JS.truthy (JS.trim s)) with (nonBlank (Some s)).
  rewrite Hs. cbn [negb].
  destruct (construct client (clientFields baseUrl credentials model)); [reflexivity | ].
  rewrite doEmbeddingWithRetry_logged. cbv zeta.
  destruct (embeddingWithRetry client (length (called w))
              (request model encodingFormat (Single s))) as [[| item rest] | e];
    reflexivity.
Qed.

Lemma wrap_is_not_empty_input (e : JS.thrown) :
  wrap e <> Raised (JS.Error "Text content is empty").
Proof. unfold wrap. simpl. intros H. discriminate. Qed.
End EmbedQueryFacts.

(** C3, as amended.  [embedQuery] raises "Text content is empty" exactly
    when the text is null or trims to nothing.  For any other text, once
    the client has been constructed, exactly one request is added to the
    log, of that text alone, and when it is answered with an element at
    index 0 the [embedding] field of that element is returned; when the
    constructor throws, the call raises and no request is issued. *)
Theorem embedQuery_one_request
    (client : OpenAIEmbeddings) (baseUrl : string) (credentials : Credentials.t)
    (model : string) (encodingFormat : EncodingFormat)
    (text : Document) (w : World) :
  let out := embedQuery client baseUrl credentials model encodingFormat text w in
  (fst out = Raised (JS.Error "Text content is empty")
   <-> (text = None \/ exists s, text = Some s /\ JS.trim s = EmptyString))
  /\ (forall s,
        text = Some s -> JS.trim s <> EmptyString ->
        (construct client (clientFields baseUrl credentials model) = None ->
         let response :=
           embeddingWithRetry client (length (called w))
             (request model encodingFormat (Single s)) in
         snd out = logged w [(request model encodingFormat (Single s), response)]
         /\ (forall item rest, response = Resolved (item :: rest) ->
               fst out = Returned (embedding item)))
        /\ (forall e,
              construct client (clientFields baseUrl credentials model) = Some e ->
              out = (Raised (JS.Error ("Error generating embedding: "
                                       ++ JS.messageOf e)%string), w))).
Proof.
  cbv zeta. split.
  - destruct (nonBlank text) eqn:Hb.
    + split.
      * intros H. exfalso. destruct text as [s | ]; [ | discriminate].
        rewrite embedQuery_nonBlank in H by exact Hb.
        destruct (construct client (clientFields baseUrl credentials model)) as [e | ].
        -- exact (wrap_is_not_empty_input e H).
        -- cbv zeta in H. cbn [fst] in H.
           destruct (embeddingWithRetry client (length (called w))
                       (request model encodingFormat (Single s))) as [[| item rest] | e];
             [exact (wrap_is_not_empty_input _ H) | discriminate
             | exact (wrap_is_not_empty_input _ H)].
      * intros [-> | [s [-> Hs]]]; [discriminate | ].
        apply nonBlank_false_trim in Hs. congruence.
    + rewrite embedQuery_blank by exact Hb. split; [ | reflexivity].
      intros _. destruct text as [s | ]; [right | now left].
      exists s. split; [reflexivity | now apply nonBlank_false_trim].
  - intros s -> Hs.
    assert (Hb : nonBlank (Some s) = true).
    { destruct (nonBlank (Some s)) eqn:Hb; [reflexivity | ].
      apply nonBlank_false_trim in Hb. contradiction. }
    rewrite embedQuery_nonBlank by exact Hb. split.
    + intros ->. cbv zeta. cbn [fst snd]. split; [reflexivity | ].
      intros item rest ->. reflexivity.
    + intros e ->. reflexivity.
Qed.

Lemma embedQuery_one_request_witness :
  snd (embedQuery (answering echo) "http://localhost:1234/v1" localCredentials
         "nomic-embed-text" Float (Some " hello ") emptyWorld)
  = logged emptyWorld
      [(request "nomic-embed-text" Float (Single " hello "),
        Resolved [ {| index := 0; embedding := echo " hello " |} ])]
  /\ fst (embedQuery (answering echo) "http://localhost:1234/v1" localCredentials
            "nomic-embed-text" Float (Some " hello ") emptyWorld)
     = Returned (echo " hello ").
Proof.
  destruct (proj1 (proj2 (embedQuery_one_request (answering echo)
                            "http://localhost:1234/v1" localCredentials
                            "nomic-embed-text" Float (Some " hello ") emptyWorld)
                     " hello " eq_refl ltac:(discriminate)) eq_refl) as [Hlog Hout].
  split; [exact Hlog | ].
  exact (Hout {| index := 0; embedding := echo " hello " |} [] eq_refl).
Defined.

(** C3, as stated, fails when the client constructor throws: the text
    is not blank, yet the call raises with no request issued. *)
Lemma embedQuery_without_client :
  nonBlank (Some "hello") = true
  /\ embedQuery unconfigured "http://localhost:1234/v1" localCredentials
       "nomic-embed-text" Float (Some "hello") emptyWorld
     = (Raised (JS.Error "Error generating embedding: OpenAI or Azure OpenAI API key not found"),
        emptyWorld)
  /\ called emptyWorld = [].
Proof. repeat split. Qed.

(* ================================================================= *)
(** ** Claims about the model list and the connectivity check *)

(** C7.  When the models path answers with a success status and a body
    whose [data] holds the entries, [getModels] (in both variants of the
    node) returns the pair [{name: id, value: id}] of each entry, in the
    order of the body and with nothing dropped or merged. *)
Theorem getModels_keeps_server_order
    (net : Network) (credentials : Credentials.t) (w : World)
    (response : FetchResponse) (entries : list ModelEntry) :
  ok response = true ->
  json response = inr {| data := Some entries |} ->
  (net (JS.replaceBackslashes (Credentials.baseUrl credentials) ++ "/models")%string
       (getInit credentials) = Fulfilled response ->
   fst (getModels net credentials w)
   = Returned (map (fun m => {| name := id m; value := id m |}) entries))
  /\ (net (Credentials.baseUrl credentials ++ "/models")%string
          (getInit credentials) = Fulfilled response ->
      fst (Plain.getModels net credentials w)
      = Returned (map (fun m => {| name := id m; value := id m |}) entries)).
Proof.
  intros Hok Hjson.
  split; intros Hnet; unfold getModels, Plain.getModels, loadModels, doFetch;
    rewrite Hnet, Hok; simpl; rewrite Hjson; reflexivity.
Qed.

Lemma getModels_keeps_server_order_witness :
  fst (getModels listingAB localCredentials emptyWorld)
  = Returned [ {| name := "a"; value := "a" |}; {| name := "b"; value := "b" |} ]
  /\ fst (Plain.getModels listingAB localCredentials emptyWorld)
     = Returned [ {| name := "a"; value := "a" |}; {| name := "b"; value := "b" |} ].
Proof.
  destruct (getModels_keeps_server_order listingAB localCredentials emptyWorld
              {| ok := true; status := 200; statusText := "OK";
                 json := inr {| data := Some [ {| id := "a" |}; {| id := "b" |} ] |} |}
              [ {| id := "a" |}; {| id := "b" |} ] eq_refl eq_refl) as [H1 H2].
  split; [exact (H1 eq_refl) | exact (H2 eq_refl)].
Defined.

(** C10.  [supplyData] issues one GET of the models path under the
    normalised base URL and nothing else; when that request is rejected
    or answers with a status that is not a success it raises an error
    that starts with "LM Studio connection failed"; it returns the
    provider, made of the two closures, exactly when the request answers
    with a success status. *)
Theorem supplyData_checks_connection_first
    (net : Network) (client : OpenAIEmbeddings) (credentials : Credentials.t)
    (model : string) (encodingFormat : EncodingFormat) (batchSize : Z) (w : World) :
  let baseUrl := JS.replaceBackslashes (Credentials.baseUrl credentials) in
  let url := (baseUrl ++ "/models")%string in
  let init := getInit credentials in
  let out := supplyData net client credentials model encodingFormat batchSize w in
  method init = "GET"
  /\ fetched (snd out) = fetched w ++ [(url, init)]
  /\ called (snd out) = called w
  /\ match net url init with
     | Failed e =>
         fst out
         = Raised (JS.Error ("LM Studio connection failed: " ++ JS.messageOf e)%string)
     | Fulfilled response =>
         if ok response then
           fst out
           = Returned
               {| Provider.embedQuery :=
                    embedQuery client baseUrl credentials model encodingFormat;
                  Provider.embedDocuments :=
                    embedDocuments client baseUrl credentials model encodingFormat batchSize |}
         else
           fst out
           = Raised (JS.Error ("LM Studio connection failed: Cannot connect to LM Studio: "
                               ++ JS.numberToString (status response) ++ " "
                               ++ statusText response)%string)
     end
  /\ ((exists provider, fst out = Returned provider)
      <-> exists response, net url init = Fulfilled response /\ ok response = true).
Proof.
  cbv zeta. unfold supplyData, testConnection, doFetch, statusLine.
  destruct (net (JS.replaceBackslashes (Credentials.baseUrl credentials) ++ "/models")%string
                (getInit credentials)) as [response | e] eqn:Hnet.
  - destruct (ok response) eqn:Hok; simpl; repeat split; try reflexivity.
    + intros _. now exists response.
    + intros _. eexists; reflexivity.
    + intros [p Hp]. discriminate.
    + intros [r [Hr Hokr]]. injection Hr as <-. congruence.
  - simpl. repeat split; try reflexivity.
    + intros [p Hp]. discriminate.
    + intros [r [Hr _]]. discriminate.
Qed.

Example supplyData_unavailable :
  fst (supplyData unavailable (answering echo) localCredentials "nomic-embed-text" Float 10
         emptyWorld)
  = Raised (JS.Error "LM Studio connection failed: Cannot connect to LM Studio: 503 Service Unavailable").
Proof. reflexivity. Qed.

(* ================================================================= *)
(** ** The Authorization header *)

Example getInit_with_key :
  headers (getInit keyedCredentials)
  = [("Content-Type", "application/json"); ("Authorization", "Bearer sk-1")]
  /\ headers (snd (Host.credentialTest keyedCredentials))
     = [("Authorization", "Bearer sk-1")].
Proof. split; reflexivity. Qed.

Lemma spreadAuthorization_spec (credentials : Credentials.t) :
  In "Authorization" (map fst (headers (getInit credentials)))
  <-> exists key, Credentials.apiKey credentials = Some key /\ key <> "".
Proof.
  unfold getInit, spreadAuthorization. simpl.
  destruct (Credentials.apiKey credentials) as [[| c key] | ]; simpl.
  - split; [intros [H | []]; discriminate | intros [key [H Hne]]].
    injection H as <-. congruence.
  - split; [intros _; eexists; split; [reflexivity | discriminate] | ].
    intros _. right. now left.
  - split; [intros [H | []]; discriminate | intros [key [H _]]; discriminate].
Qed.

(** C8, at the credential test.  The [fetch] calls of the node carry the
    Authorization header exactly when a non-empty key is configured, but
    the descriptor of the credential type lists the header without a
    condition: the request of the credential test carries it for every
    credential, with the value [Bearer ] and nothing after it when no key
    is configured. *)
Theorem credential_test_sends_authorization_without_key (credentials : Credentials.t) :
  In "Authorization" (map fst (headers (snd (Host.credentialTest credentials))))
  /\ Host.credentialTest localCredentials
     = ("http://localhost:1234/v1/models",
        {| method := "GET"; headers := [("Authorization", "Bearer ")] |})
  /\ headers (getInit localCredentials) = [("Content-Type", "application/json")]
  /\ (In "Authorization" (map fst (headers (getInit credentials)))
      <-> exists key, Credentials.apiKey credentials = Some key /\ key <> "").
Proof.
  split; [now left | ]. split; [reflexivity | ]. split; [reflexivity | ].
  apply spreadAuthorization_spec.
Qed.

(** The direct-output variant of the node never hands the client an
    empty key: without a configured key the client authenticates as
    [dummy-key]. *)
Lemma openAIApiKey_never_empty (credentials : Credentials.t) :
  openAIApiKey credentials <> ""
  /\ openAIApiKey localCredentials = "dummy-key".
Proof.
  split; [ | reflexivity]. unfold openAIApiKey.
  destruct (Credentials.apiKey credentials) as [[| c key] | ]; simpl; discriminate.
Qed.

(** A batched answer with fewer elements than submitted strings: the
    pushes made before the missing element stay, the fallback then
    pushes the whole chunk again, and the result is longer than the
    input. *)
Example short_answer_repeats_entries :
  fst (embedDocuments
         {| construct := fun _ => None;
            embeddingWithRetry := fun _ req =>
              match Request.input req with
              | Single s => Resolved [ {| index := 0; embedding := echo s |} ]
              | Many l =>
                  Resolved (map (fun s => {| index := 0; embedding := echo s |}) (firstn 1 l))
              end |}
         "http://localhost:1234/v1" localCredentials "nomic-embed-text" Float 2 4
         (Some [Some "a"; Some "b"; Some "c"]) emptyWorld)
  = Returned [echo "a"; echo "a"; echo "b"; echo "c"].
Proof. reflexivity. Qed.
(* ================================================================= *)
(** ** The shape of a run, whatever the client answers *)

Lemma busy_filter (batch : list Document) :
  busy batch = false <-> filter nonBlank batch = [].
Proof.
  unfold busy. induction batch as [| doc rest IH]; simpl; [now split | ].
  destruct (nonBlank doc); simpl; [split; discriminate | exact IH].
Qed.

Lemma busy_blank (batch : list Document) :
  busy batch = false -> Forall (fun doc => nonBlank doc = false) batch.
Proof. intros H. apply filter_nil_blank. now apply busy_filter. Qed.

Lemma stringsOf_valid_cons (s : string) (rest : list Document) :
  nonBlank (Some s) = true ->
  stringsOf (filter nonBlank (Some s :: rest)) = s :: stringsOf (filter nonBlank rest).
Proof. intros H. cbn [filter]. now rewrite H. Qed.

Lemma stringsOf_valid_skip (doc : Document) (rest : list Document) :
  nonBlank doc = false ->
  stringsOf (filter nonBlank (doc :: rest)) = stringsOf (filter nonBlank rest).
Proof. intros H. cbn [filter]. now rewrite H. Qed.

Lemma length_stringsOf_valid (batch : list Document) :
  length (stringsOf (filter nonBlank batch)) = length (filter nonBlank batch).
Proof.
  induction batch as [| doc rest IH]; [reflexivity | ].
  destruct (nonBlank doc) eqn:Hdoc.
  - destruct (nonBlank_string _ Hdoc) as [s ->].
    rewrite stringsOf_valid_cons by exact Hdoc. cbn [filter]. rewrite Hdoc. simpl.
    now rewrite IH.
  - rewrite stringsOf_valid_skip by exact Hdoc. cbn [filter]. now rewrite Hdoc.
Qed.

Lemma stringsOf_valid_in (batch : list Document) (s : string) :
  In s (stringsOf (filter nonBlank batch)) ->
  In (Some s) batch /\ nonBlank (Some s) = true.
Proof.
  induction batch as [| doc rest IH]; [intros [] | ].
  destruct (nonBlank doc) eqn:Hdoc.
  - destruct (nonBlank_string _ Hdoc) as [t ->].
    rewrite stringsOf_valid_cons by exact Hdoc. intros [<- | H].
    + split; [now left | exact Hdoc].
    + destruct (IH H) as [Hin Hs]. split; [now right | exact Hs].
  - rewrite stringsOf_valid_skip by exact Hdoc. intros H.
    destruct (IH H) as [Hin Hs]. split; [now right | exact Hs].
Qed.

Lemma length_valid_le (batch : list Document) :
  length (filter nonBlank batch) <= length batch.
Proof.
  induction batch as [| doc rest IH]; simpl; [lia | ].
  destruct (nonBlank doc); simpl; lia.
Qed.

Lemma filter_nonBlank_concat (bs : list (list Document)) :
  length (filter nonBlank (concat bs))
  = list_sum (map (fun batch => length (filter nonBlank batch)) bs).
Proof.
  induction bs as [| batch bs IH]; [reflexivity | ].
  simpl. rewrite filter_app, length_app. now rewrite IH.
Qed.

(** The loop of lines 215-222 on any answer: it pushes at most one entry
    per document, and one per document when it does not throw. *)
Lemma mapBack_any (data : list EmbeddingItem) (batch : list Document) :
  forall (validIndex : nat) (f : Frame),
    exists out,
      snd (mapBack data batch validIndex f) = grown f out []
      /\ length out <= length batch
      /\ (fst (mapBack data batch validIndex f) = None -> length out = length batch).
Proof.
  induction batch as [| doc rest IH]; intros validIndex f.
  - exists []. simpl. rewrite grown_nil. split; [reflexivity | split; [lia | reflexivity]].
  - simpl. destruct (nonBlank doc).
    + destruct (nth_error data validIndex) as [item | ].
      * rewrite push_grown.
        destruct (IH (S validIndex) (grown f [embedding item] []))
          as [out [Hrun [Hle Hall]]].
        exists (embedding item :: out). rewrite Hrun, grown_grown.
        split; [reflexivity | split; [simpl; lia | ]].
        intros H. simpl. f_equal. exact (Hall H).
      * exists []. simpl. rewrite grown_nil.
        split; [reflexivity | split; [lia | discriminate]].
    + rewrite push_grown.
      destruct (IH validIndex (grown f [emptyEmbedding] [])) as [out [Hrun [Hle Hall]]].
      exists (emptyEmbedding :: out). rewrite Hrun, grown_grown.
      split; [reflexivity | split; [simpl; lia | ]].
      intros H. simpl. f_equal. exact (Hall H).
Qed.

Section ShapeFacts.
Variable client : OpenAIEmbeddings.
Variable model : string.
Variable encodingFormat : EncodingFormat.

(** The fallback on any answers: one entry per document, one request
    per non-blank document, in order. *)
Lemma embedIndividually_shape (batch : list Document) :
  forall f : Frame,
    exists out new,
      embedIndividually client model encodingFormat batch f = grown f out new
      /\ length out = length batch
      /\ map fst new = singles model encodingFormat batch.
Proof.
  induction batch as [| doc rest IH]; intros f.
  - exists [], []. simpl. rewrite grown_nil. now repeat split.
  - destruct (nonBlank doc) eqn:Hdoc.
    + destruct (nonBlank_string _ Hdoc) as [s ->].
      unfold singles. rewrite stringsOf_valid_cons by exact Hdoc.
      cbn [embedIndividually]. rewrite Hdoc, doEmbeddingWithRetry_logged.
      set (r := embeddingWithRetry client _ _).
      set (f1 := {| results := results f; world := logged (world f) _ |}).
      assert (Hf1 : f1 = grown f [] [(request model encodingFormat (Single s), r)])
        by (unfold f1, grown; now rewrite app_nil_r).
      clearbody f1.
      assert (Hstep : forall e,
                 exists out new,
                   embedIndividually client model encodingFormat rest (push e f1)
                   = grown f out new
                   /\ length out = length (Some s :: rest)
                   /\ map fst new
                      = map (fun s => request model encodingFormat (Single s))
                          (s :: stringsOf (filter nonBlank rest))).
      { intros e. destruct (IH (push e f1)) as [out [new [Hrun [Hlen Hreq]]]].
        exists (e :: out), ((request model encodingFormat (Single s), r) :: new).
        rewrite Hrun, push_grown, Hf1, !grown_grown. simpl.
        repeat split; [now rewrite Hlen | now rewrite Hreq]. }
      destruct r as [[| item data] | e]; apply Hstep.
    + assert (Hrun : embedIndividually client model encodingFormat (doc :: rest) f
                     = embedIndividually client model encodingFormat rest
                         (push emptyEmbedding f)).
      { cbn [embedIndividually]. destruct doc; [now rewrite Hdoc | reflexivity]. }
      destruct (IH (push emptyEmbedding f)) as [out [new [Hrest [Hlen Hreq]]]].
      exists (emptyEmbedding :: out), new.
      rewrite Hrun, Hrest, push_grown, grown_grown. unfold singles.
      rewrite stringsOf_valid_skip by exact Hdoc.
      repeat split; [simpl; now rewrite Hlen | exact Hreq].
Qed.

(** One chunk on any answers. *)
Lemma processBatch_shape (batch : list Document) (f : Frame) :
  exists out new,
    processBatch client model encodingFormat batch f = grown f out new
    /\ length batch <= length out <= 2 * length batch
    /\ (busy batch = false -> new = [])
    /\ (busy batch = true ->
        map fst new = [batched model encodingFormat batch]
        \/ map fst new
           = batched model encodingFormat batch :: singles model encodingFormat batch).
Proof.
  unfold processBatch.
  destruct (filter nonBlank batch) as [| d valid] eqn:Hvalid.
  - exists (map (fun _ => emptyEmbedding) batch), [].
    unfold grown. rewrite logged_nil, length_map.
    repeat split; try lia.
    intros Hbusy. apply busy_filter in Hvalid. congruence.
  - assert (Hbusy : busy batch = true).
    { destruct (busy batch) eqn:Hb; [reflexivity | ].
      apply busy_filter in Hb. congruence. }
    rewrite doEmbeddingWithRetry_logged. rewrite <- Hvalid.
    fold (batched model encodingFormat batch).
    set (r := embeddingWithRetry client _ _).
    set (f1 := {| results := results f; world := logged (world f) _ |}).
    assert (Hf1 : f1 = grown f [] [(batched model encodingFormat batch, r)])
      by (unfold f1, grown; now rewrite app_nil_r).
    clearbody f1.
    assert (Hfallback : forall pre,
               length pre <= length batch ->
               exists out new,
                 embedIndividually client model encodingFormat batch (grown f1 pre [])
                 = grown f out new
                 /\ length batch <= length out <= 2 * length batch
                 /\ (busy batch = false -> new = [])
                 /\ (busy batch = true ->
                     map fst new = [batched model encodingFormat batch]
                     \/ map fst new
                        = batched model encodingFormat batch
                          :: singles model encodingFormat batch)).
    { intros pre Hpre.
      destruct (embedIndividually_shape batch (grown f1 pre []))
        as [out [new [Hrun [Hlen Hreq]]]].
      exists (pre ++ out), ((batched model encodingFormat batch, r) :: new).
      rewrite Hrun, Hf1, !grown_grown. simpl. rewrite length_app.
      repeat split; try lia; [congruence | ]. intros _. right. now rewrite Hreq. }
    destruct r as [data | e].
    + destruct (mapBack_any data batch 0 f1) as [pre [Hsnd [Hle Hall]]].
      destruct (mapBack data batch 0 f1) as [[e | ] f2]; simpl in Hsnd, Hall; subst f2.
      * now apply Hfallback.
      * exists pre, [(batched model encodingFormat batch, Resolved data)].
        rewrite Hf1, grown_grown. simpl. rewrite (Hall eq_refl).
        repeat split; try lia; [congruence | ]. intros _. now left.
    + rewrite <- (grown_nil f1). apply Hfallback. simpl. lia.
Qed.
End ShapeFacts.


Lemma chunk_incl {A : Type} (B : nat) (l : list A) (k : nat) : incl (chunk B l k) l.
Proof.
  unfold chunk. intros x Hx.
  rewrite <- (firstn_skipn (k * B) l). apply in_or_app. right.
  rewrite <- (firstn_skipn B (skipn (k * B) l)). apply in_or_app. now left.
Qed.

Lemma batches_within (batchSize : Z) (documents : list Document) (batch : list Document) :
  (1 <= batchSize)%Z -> In batch (batches batchSize documents) ->
  incl batch documents /\ length batch <= Z.to_nat batchSize.
Proof.
  intros HB Hin. split.
  - unfold batches, chunks in Hin. apply in_map_iff in Hin.
    destruct Hin as [k [<- _]]. apply chunk_incl.
  - assert (H := chunks_bounds (Z.to_nat batchSize) documents ltac:(lia)).
    rewrite Forall_forall in H. apply (H batch Hin).
Qed.

Section RunShapeFacts.
Variable client : OpenAIEmbeddings.
Variable model : string.
Variable encodingFormat : EncodingFormat.
Variable B : nat.
Variable documents : list Document.

Lemma batched_issuedFrom (batch : list Document) :
  busy batch = true -> incl batch documents -> length batch <= B ->
  issuedFrom model encodingFormat B documents (batched model encodingFormat batch).
Proof.
  intros Hbusy Hincl Hlen. unfold issuedFrom, batched, submittedBy. simpl.
  split; [reflexivity | ]. split; [reflexivity | ]. split; [ | split].
  - intros Hnil. apply (f_equal (@length string)) in Hnil.
    rewrite length_stringsOf_valid in Hnil. simpl in Hnil.
    apply length_zero_iff_nil in Hnil. apply busy_filter in Hnil. congruence.
  - apply Forall_forall. intros s Hs. apply stringsOf_valid_in in Hs.
    destruct Hs as [Hin Hs]. split; [now apply Hincl | exact Hs].
  - rewrite length_stringsOf_valid. assert (H := length_valid_le batch). lia.
Qed.

Lemma singles_issuedFrom (batch : list Document) :
  incl batch documents ->
  Forall (issuedFrom model encodingFormat B documents)
         (singles model encodingFormat batch).
Proof.
  intros Hincl. unfold singles. apply Forall_forall. intros req Hreq.
  apply in_map_iff in Hreq. destruct Hreq as [s [<- Hs]].
  apply stringsOf_valid_in in Hs. destruct Hs as [Hin Hs].
  unfold issuedFrom, submittedBy. simpl.
  split; [reflexivity | ]. split; [reflexivity | ]. split; [discriminate | ].
  split; [ | exact I]. constructor; [ | constructor].
  split; [now apply Hincl | exact Hs].
Qed.

(** The chunks of a run in order, on any answers. *)
Lemma batches_shape (bs : list (list Document)) :
  (forall batch, In batch bs -> incl batch documents /\ length batch <= B) ->
  forall f : Frame,
    exists out new,
      fold_left (fun f batch => processBatch client model encodingFormat batch f) bs f
      = grown f out new
      /\ length (concat bs) <= length out <= 2 * length (concat bs)
      /\ Forall (issuedFrom model encodingFormat B documents) (map fst new)
      /\ length (filter busy bs) <= length new
         <= length (filter busy bs) + length (filter nonBlank (concat bs)).
Proof.
  induction bs as [| batch bs IH]; intros Hbs f.
  - exists [], []. simpl. rewrite grown_nil.
    split; [reflexivity | ]. split; [lia | ]. split; [constructor | lia].
  - destruct (Hbs batch (or_introl eq_refl)) as [Hincl Hlen].
    destruct (processBatch_shape client model encodingFormat batch f)
      as [o1 [n1 [H1 [L1 [Hidle Hbusy]]]]].
    destruct (IH (fun b Hb => Hbs b (or_intror Hb))
                (processBatch client model encodingFormat batch f))
      as [o2 [n2 [H2 [L2 [R2 C2]]]]].
    exists (o1 ++ o2), (n1 ++ n2). cbn [fold_left]. rewrite H2, H1, grown_grown.
    split; [reflexivity | ].
    cbn [concat filter]. rewrite filter_app, !length_app, map_app.
    assert (Hn1 : Forall (issuedFrom model encodingFormat B documents) (map fst n1)
                  /\ (if busy batch then 1 else 0) <= length n1
                     <= (if busy batch then 1 else 0) + length (filter nonBlank batch)).
    { destruct (busy batch) eqn:Hb.
      - destruct (Hbusy eq_refl) as [Hreq | Hreq];
          (split; [rewrite Hreq | apply (f_equal (@length _)) in Hreq;
                                  rewrite length_map in Hreq; rewrite Hreq ]).
        + constructor; [now apply batched_issuedFrom | constructor].
        + simpl. lia.
        + constructor; [now apply batched_issuedFrom | now apply singles_issuedFrom].
        + simpl. unfold singles. rewrite length_map, length_stringsOf_valid. lia.
      - rewrite (Hidle eq_refl). split; [constructor | simpl; lia]. }
    destruct Hn1 as [R1 C1].
    split; [lia | ]. split; [now apply Forall_app | ].
    destruct (busy batch); simpl in *; lia.
Qed.
End RunShapeFacts.

Lemma embedDocuments_shape
    (client : OpenAIEmbeddings) (baseUrl : string) (credentials : Credentials.t)
    (model : string) (encodingFormat : EncodingFormat) (batchSize : Z)
    (fuel : nat) (documents : list Document) (w : World) :
  documents <> [] -> (1 <= batchSize)%Z ->
  construct client (clientFields baseUrl credentials model) = None ->
  length documents < fuel ->
  exists result new,
    embedDocuments client baseUrl credentials model encodingFormat batchSize
      fuel (Some documents) w = (Returned result, logged w new)
    /\ length documents <= length result <= 2 * length documents
    /\ Forall (issuedFrom model encodingFormat (Z.to_nat batchSize) documents)
              (map fst new)
    /\ length (filter busy (batches batchSize documents)) <= length new
       <= length (filter busy (batches batchSize documents))
          + length (filter nonBlank documents).
Proof.
  intros Hne HB Hctor Hfuel.
  rewrite embedDocuments_fold by assumption. cbv zeta.
  destruct (batches_shape client model encodingFormat (Z.to_nat batchSize) documents
              (batches batchSize documents)
              (fun batch Hin => batches_within batchSize documents batch HB Hin)
              {| results := []; world := w |}) as [out [new [Hrun H]]].
  exists out, new. rewrite Hrun. split; [reflexivity | ].
  unfold batches in H at 1 2 5. rewrite concat_chunks in H by lia. exact H.
Qed.

(* ================================================================= *)
(** ** Further properties of [embedDocuments] *)

(** X3.  Whatever the client answers, every request of a run uses the
    model and the encoding format of the node, submits at least one
    string, only non-blank strings of the input, and at most the batch
    size of them when batched; the run issues no [fetch]. *)
Theorem embedDocuments_requests_are_well_formed
    (client : OpenAIEmbeddings) (baseUrl : string) (credentials : Credentials.t)
    (model : string) (encodingFormat : EncodingFormat) (batchSize : Z)
    (fuel : nat) (documents : list Document) (w : World) :
  documents <> [] -> (1 <= batchSize)%Z ->
  construct client (clientFields baseUrl credentials model) = None ->
  length documents < fuel ->
  exists result new,
    embedDocuments client baseUrl credentials model encodingFormat batchSize
      fuel (Some documents) w
    = (Returned result, {| fetched := fetched w; called := called w ++ new |})
    /\ Forall (issuedFrom model encodingFormat (Z.to_nat batchSize) documents)
              (map fst new).
Proof.
  intros Hne HB Hctor Hfuel.
  destruct (embedDocuments_shape client baseUrl credentials model encodingFormat
              batchSize fuel documents w Hne HB Hctor Hfuel)
    as [result [new [Hrun [_ [Hreq _]]]]].
  exists result, new. split; [exact Hrun | exact Hreq].
Qed.

Lemma embedDocuments_requests_are_well_formed_witness :
  exists result new,
    embedDocuments (truncating echo) "http://localhost:1234/v1" localCredentials
      "nomic-embed-text" Float 2 5 (Some [Some "a"; Some " "; Some "b"; Some "c"]) emptyWorld
    = (Returned result, {| fetched := fetched emptyWorld; called := called emptyWorld ++ new |})
    /\ Forall (issuedFrom "nomic-embed-text" Float (Z.to_nat 2)
                 [Some "a"; Some " "; Some "b"; Some "c"])
              (map fst new).
Proof.
  apply (embedDocuments_requests_are_well_formed (truncating echo)
           "http://localhost:1234/v1" localCredentials "nomic-embed-text" Float 2 5
           [Some "a"; Some " "; Some "b"; Some "c"] emptyWorld).
  - discriminate.
  - lia.
  - reflexivity.
  - simpl. lia.
Defined.

(** X4.  Whatever the client answers, a run issues at least one request
    per chunk that holds a non-blank document, and at most one more per
    non-blank document of the input. *)
Theorem embedDocuments_request_count
    (client : OpenAIEmbeddings) (baseUrl : string) (credentials : Credentials.t)
    (model : string) (encodingFormat : EncodingFormat) (batchSize : Z)
    (fuel : nat) (documents : list Document) (w : World) :
  documents <> [] -> (1 <= batchSize)%Z ->
  construct client (clientFields baseUrl credentials model) = None ->
  length documents < fuel ->
  exists result new,
    embedDocuments client baseUrl credentials model encodingFormat batchSize
      fuel (Some documents) w = (Returned result, logged w new)
    /\ length (filter busy (batches batchSize documents)) <= length new
    /\ length new <= length (filter busy (batches batchSize documents))
                     + length (filter nonBlank documents)
    /\ length new <= chunkCount (length documents) (Z.to_nat batchSize)
                     + length documents.
Proof.
  intros Hne HB Hctor Hfuel.
  destruct (embedDocuments_shape client baseUrl credentials model encodingFormat
              batchSize fuel documents w Hne HB Hctor Hfuel)
    as [result [new [Hrun [_ [_ [Hlo Hhi]]]]]].
  exists result, new. split; [exact Hrun | ]. split; [exact Hlo | ].
  split; [exact Hhi | ].
  assert (H1 := filter_length_le busy (batches batchSize documents)).
  assert (H2 := length_valid_le documents).
  unfold batches in H1 at 2. rewrite length_chunks in H1. lia.
Qed.

Lemma embedDocuments_request_count_witness :
  exists result new,
    embedDocuments rejecting "http://localhost:1234/v1" localCredentials
      "nomic-embed-text" Float 2 4 (Some [Some "a"; Some " "; Some "b"]) emptyWorld
    = (Returned result, logged emptyWorld new)
    /\ length (filter busy (batches 2 [Some "a"; Some " "; Some "b"])) <= length new
    /\ length new <= length (filter busy (batches 2 [Some "a"; Some " "; Some "b"]))
                     + length (filter nonBlank [Some "a"; Some " "; Some "b"])
    /\ length new <= chunkCount 3 (Z.to_nat 2) + 3.
Proof.
  apply (embedDocuments_request_count rejecting "http://localhost:1234/v1"
           localCredentials "nomic-embed-text" Float 2 4
           [Some "a"; Some " "; Some "b"] emptyWorld).
  - discriminate.
  - lia.
  - reflexivity.
  - simpl. lia.
Defined.

(** X5.  Whatever the client answers, the result of a run is never
    shorter than the input, and never more than twice as long. *)
Theorem embedDocuments_result_length
    (client : OpenAIEmbeddings) (baseUrl : string) (credentials : Credentials.t)
    (model : string) (encodingFormat : EncodingFormat) (batchSize : Z)
    (fuel : nat) (documents : list Document) (w : World) :
  documents <> [] -> (1 <= batchSize)%Z ->
  construct client (clientFields baseUrl credentials model) = None ->
  length documents < fuel ->
  exists result w',
    embedDocuments client baseUrl credentials model encodingFormat batchSize
      fuel (Some documents) w = (Returned result, w')
    /\ length documents <= length result <= 2 * length documents.
Proof.
  intros Hne HB Hctor Hfuel.
  destruct (embedDocuments_shape client baseUrl credentials model encodingFormat
              batchSize fuel documents w Hne HB Hctor Hfuel)
    as [result [new [Hrun [Hlen _]]]].
  exists result, (logged w new). split; [exact Hrun | exact Hlen].
Qed.

Lemma embedDocuments_result_length_witness :
  exists result w',
    embedDocuments (truncating echo) "http://localhost:1234/v1" localCredentials
      "nomic-embed-text" Float 2 4 (Some [Some "a"; Some "b"; Some "c"]) emptyWorld
    = (Returned result, w')
    /\ 3 <= length result <= 2 * 3.
Proof.
  apply (embedDocuments_result_length (truncating echo) "http://localhost:1234/v1"
           localCredentials "nomic-embed-text" Float 2 4
           [Some "a"; Some "b"; Some "c"] emptyWorld).
  - discriminate.
  - lia.
  - reflexivity.
  - simpl. lia.
Defined.

(* ================================================================= *)
(** ** Runs whose requests are all answered, or all rejected *)

Section UniformFacts.
Variable client : OpenAIEmbeddings.
Variable model : string.
Variable encodingFormat : EncodingFormat.

Lemma batch_answered (emb : string -> Embedding) (batch : list Document) (f : Frame) :
  answersWith emb client ->
  exists new,
    processBatch client model encodingFormat batch f
    = grown f (map (expected emb) batch) new
    /\ map fst new = if busy batch then [batched model encodingFormat batch] else [].
Proof.
  intros Hans. destruct (busy batch) eqn:Hbusy.
  - destruct (Hans (length (called (world f))) (batched model encodingFormat batch))
      as [data [Hr Hdata]].
    exists [(batched model encodingFormat batch, Resolved data)]. split; [ | reflexivity].
    apply (processBatch_answered client model encodingFormat emb batch f data);
      [ | exact Hr | exact Hdata].
    intros Hnil. apply busy_filter in Hnil. congruence.
  - exists []. split; [ | reflexivity].
    rewrite processBatch_blank by (now apply busy_blank).
    now rewrite map_expected_blank by (now apply busy_blank).
Qed.

Lemma batches_answered (emb : string -> Embedding) (bs : list (list Document)) :
  answersWith emb client ->
  forall f : Frame,
    exists new,
      fold_left (fun f batch => processBatch client model encodingFormat batch f) bs f
      = grown f (map (expected emb) (concat bs)) new
      /\ map fst new = map (batched model encodingFormat) (filter busy bs).
Proof.
  intros Hans. induction bs as [| batch bs IH]; intros f.
  - exists []. simpl. now rewrite grown_nil.
  - destruct (batch_answered emb batch f Hans) as [n1 [H1 R1]].
    destruct (IH (processBatch client model encodingFormat batch f)) as [n2 [H2 R2]].
    exists (n1 ++ n2). cbn [fold_left concat filter].
    rewrite H2, H1, grown_grown, map_app, map_app, R1, R2. split; [reflexivity | ].
    now destruct (busy batch).
Qed.

Lemma embedIndividually_rejected (batch : list Document) :
  rejectsAll client ->
  forall f : Frame,
    exists new,
      embedIndividually client model encodingFormat batch f
      = grown f (map (fun _ => emptyEmbedding) batch) new
      /\ map fst new = singles model encodingFormat batch.
Proof.
  intros Hrej. induction batch as [| doc rest IH]; intros f.
  - exists []. simpl. now rewrite grown_nil.
  - destruct (nonBlank doc) eqn:Hdoc.
    + destruct (nonBlank_string _ Hdoc) as [s ->].
      unfold singles. rewrite stringsOf_valid_cons by exact Hdoc.
      cbn [embedIndividually]. rewrite Hdoc, doEmbeddingWithRetry_logged.
      destruct (Hrej (length (called (world f))) (request model encodingFormat (Single s)))
        as [e ->].
      set (f1 := {| results := results f; world := logged (world f) _ |}).
      assert (Hf1 : f1 = grown f [] [(request model encodingFormat (Single s), Rejected e)])
        by (unfold f1, grown; now rewrite app_nil_r).
      clearbody f1.
      destruct (IH (push emptyEmbedding f1)) as [new [Hrun Hreq]].
      exists ((request model encodingFormat (Single s), Rejected e) :: new).
      rewrite Hrun, push_grown, Hf1, !grown_grown. simpl.
      split; [reflexivity | now rewrite Hreq].
    + assert (Hrun : embedIndividually client model encodingFormat (doc :: rest) f
                     = embedIndividually client model encodingFormat rest
                         (push emptyEmbedding f)).
      { cbn [embedIndividually]. destruct doc; [now rewrite Hdoc | reflexivity]. }
      destruct (IH (push emptyEmbedding f)) as [new [Hrest Hreq]].
      exists new. rewrite Hrun, Hrest, push_grown, grown_grown. unfold singles.
      rewrite stringsOf_valid_skip by exact Hdoc. split; [reflexivity | exact Hreq].
Qed.

Lemma batch_rejected (batch : list Document) (f : Frame) :
  rejectsAll client ->
  exists new,
    processBatch client model encodingFormat batch f
    = grown f (map (fun _ => emptyEmbedding) batch) new
    /\ map fst new
       = if busy batch
         then batched model encodingFormat batch :: singles model encodingFormat batch
         else [].
Proof.
  intros Hrej. destruct (busy batch) eqn:Hbusy.
  - unfold processBatch.
    destruct (filter nonBlank batch) as [| d valid] eqn:Hvalid;
      [apply busy_filter in Hvalid; congruence | ].
    rewrite doEmbeddingWithRetry_logged. rewrite <- Hvalid.
    fold (batched model encodingFormat batch).
    destruct (Hrej (length (called (world f))) (batched model encodingFormat batch))
      as [e ->].
    set (f1 := {| results := results f; world := logged (world f) _ |}).
    assert (Hf1 : f1 = grown f [] [(batched model encodingFormat batch, Rejected e)])
      by (unfold f1, grown; now rewrite app_nil_r).
    clearbody f1.
    destruct (embedIndividually_rejected batch Hrej f1) as [new [Hrun Hreq]].
    exists ((batched model encodingFormat batch, Rejected e) :: new).
    rewrite Hrun, Hf1, grown_grown. simpl. split; [reflexivity | now rewrite Hreq].
  - exists []. split; [ | reflexivity]. apply processBatch_blank. now apply busy_blank.
Qed.

Lemma batches_rejected (bs : list (list Document)) :
  rejectsAll client ->
  forall f : Frame,
    exists new,
      fold_left (fun f batch => processBatch client model encodingFormat batch f) bs f
      = grown f (map (fun _ => emptyEmbedding) (concat bs)) new
      /\ map fst new
         = flat_map (fun batch => batched model encodingFormat batch
                                  :: singles model encodingFormat batch)
                    (filter busy bs).
Proof.
  intros Hrej. induction bs as [| batch bs IH]; intros f.
  - exists []. simpl. now rewrite grown_nil.
  - destruct (batch_rejected batch f Hrej) as [n1 [H1 R1]].
    destruct (IH (processBatch client model encodingFormat batch f)) as [n2 [H2 R2]].
    exists (n1 ++ n2). cbn [fold_left concat filter].
    rewrite H2, H1, grown_grown, map_app, map_app, R1, R2. split; [reflexivity | ].
    destruct (busy batch); [ | reflexivity].
    cbn [flat_map]. now rewrite <- app_comm_cons.
Qed.
End UniformFacts.

Lemma length_flat_requests (model : string) (encodingFormat : EncodingFormat)
    (bs : list (list Document)) :
  length (flat_map (fun batch => batched model encodingFormat batch
                                 :: singles model encodingFormat batch)
                   (filter busy bs))
  = length (filter busy bs) + length (filter nonBlank (concat bs)).
Proof.
  induction bs as [| batch bs IH]; [reflexivity | ].
  cbn [filter concat]. rewrite filter_app, length_app.
  destruct (busy batch) eqn:Hbusy.
  - cbn [flat_map]. simpl. rewrite length_app, IH. unfold singles.
    rewrite length_map, length_stringsOf_valid. lia.
  - rewrite IH. apply busy_filter in Hbusy. rewrite Hbusy. simpl. lia.
Qed.

(** X1.  When every request is answered with the embedding of each
    submitted text, a run returns, position by position, the embedding
    of each non-blank document and the empty list for each blank one,
    and its requests are exactly the batched requests of the chunks that
    hold a non-blank document, in order: the result does not depend on
    the batch size. *)
Theorem embedDocuments_answered
    (client : OpenAIEmbeddings) (baseUrl : string) (credentials : Credentials.t)
    (model : string) (encodingFormat : EncodingFormat) (batchSize : Z)
    (emb : string -> Embedding) (fuel : nat) (documents : list Document) (w : World) :
  documents <> [] -> (1 <= batchSize)%Z ->
  construct client (clientFields baseUrl credentials model) = None ->
  answersWith emb client ->
  length documents < fuel ->
  exists new,
    embedDocuments client baseUrl credentials model encodingFormat batchSize
      fuel (Some documents) w
    = (Returned (map (expected emb) documents), logged w new)
    /\ map fst new
       = map (batched model encodingFormat) (filter busy (batches batchSize documents)).
Proof.
  intros Hne HB Hctor Hans Hfuel.
  rewrite embedDocuments_fold by assumption. cbv zeta.
  destruct (batches_answered client model encodingFormat emb
              (batches batchSize documents) Hans {| results := []; world := w |})
    as [new [Hrun Hreq]].
  exists new. rewrite Hrun. split; [ | exact Hreq].
  unfold batches. rewrite concat_chunks by lia. reflexivity.
Qed.

Lemma embedDocuments_answered_witness :
  exists new,
    embedDocuments (answering echo) "http://localhost:1234/v1" localCredentials
      "nomic-embed-text" Float 2 6
      (Some [Some "a"; None; Some " "; Some ""; Some "b"]) emptyWorld
    = (Returned (map (expected echo) [Some "a"; None; Some " "; Some ""; Some "b"]),
       logged emptyWorld new)
    /\ map fst new
       = map (batched "nomic-embed-text" Float)
           (filter busy (batches 2 [Some "a"; None; Some " "; Some ""; Some "b"])).
Proof.
  apply (embedDocuments_answered (answering echo) "http://localhost:1234/v1"
           localCredentials "nomic-embed-text" Float 2 echo 6
           [Some "a"; None; Some " "; Some ""; Some "b"] emptyWorld).
  - discriminate.
  - lia.
  - reflexivity.
  - apply answering_answers.
  - simpl. lia.
Defined.

(** X2.  When every request is rejected, a run still returns: one empty
    list per document; it has issued, for each chunk that holds a
    non-blank document, the batched request and then one request per
    non-blank document of the chunk. *)
Theorem embedDocuments_rejected
    (client : OpenAIEmbeddings) (baseUrl : string) (credentials : Credentials.t)
    (model : string) (encodingFormat : EncodingFormat) (batchSize : Z)
    (fuel : nat) (documents : list Document) (w : World) :
  documents <> [] -> (1 <= batchSize)%Z ->
  construct client (clientFields baseUrl credentials model) = None ->
  rejectsAll client ->
  length documents < fuel ->
  exists new,
    embedDocuments client baseUrl credentials model encodingFormat batchSize
      fuel (Some documents) w
    = (Returned (repeat emptyEmbedding (length documents)), logged w new)
    /\ map fst new
       = flat_map (fun batch => batched model encodingFormat batch
                                :: singles model encodingFormat batch)
                  (filter busy (batches batchSize documents))
    /\ length new
       = length (filter busy (batches batchSize documents))
         + length (filter nonBlank documents).
Proof.
  intros Hne HB Hctor Hrej Hfuel.
  rewrite embedDocuments_fold by assumption. cbv zeta.
  destruct (batches_rejected client model encodingFormat
              (batches batchSize documents) Hrej {| results := []; world := w |})
    as [new [Hrun Hreq]].
  exists new. rewrite Hrun. split; [ | split; [exact Hreq | ]].
  - unfold batches. rewrite concat_chunks by lia. simpl. now rewrite map_const.
  - rewrite <- (length_map fst new), Hreq, length_flat_requests.
    unfold batches at 2. now rewrite concat_chunks by lia.
Qed.

Lemma rejecting_rejects : rejectsAll rejecting.
Proof. intros n req. eexists. reflexivity. Qed.

Lemma embedDocuments_rejected_witness :
  exists new,
    embedDocuments rejecting "http://localhost:1234/v1" localCredentials
      "nomic-embed-text" Float 2 4 (Some [Some "a"; Some " "; Some "b"]) emptyWorld
    = (Returned (repeat emptyEmbedding 3), logged emptyWorld new)
    /\ map fst new
       = flat_map (fun batch => batched "nomic-embed-text" Float batch
                                :: singles "nomic-embed-text" Float batch)
                  (filter busy (batches 2 [Some "a"; Some " "; Some "b"]))
    /\ length new
       = length (filter busy (batches 2 [Some "a"; Some " "; Some "b"]))
         + length (filter nonBlank [Some "a"; Some " "; Some "b"]).
Proof.
  apply (embedDocuments_rejected rejecting "http://localhost:1234/v1"
           localCredentials "nomic-embed-text" Float 2 4
           [Some "a"; Some " "; Some "b"] emptyWorld).
  - discriminate.
  - lia.
  - reflexivity.
  - apply rejecting_rejects.
  - simpl. lia.
Defined.

(* ================================================================= *)
(** ** A batched answer that is short *)

Lemma skipn_nil_length {A : Type} (n : nat) (l : list A) :
  skipn n l = [] -> length l <= n.
Proof.
  intros H. apply (f_equal (@length A)) in H. rewrite length_skipn in H.
  simpl in H. lia.
Qed.

Lemma mapBack_short (submitted : list string) (data : list EmbeddingItem)
    (batch : list Document) :
  length data < length submitted ->
  forall (validIndex : nat) (f : Frame),
    validIndex <= length data ->
    skipn validIndex submitted = stringsOf (filter nonBlank batch) ->
    exists pre,
      mapBack data batch validIndex f = (Some readOfUndefined, grown f pre [])
      /\ length pre = reach (length data - validIndex) batch
      /\ Forall2 (mapped submitted data)
                 (firstn (reach (length data - validIndex) batch) batch) pre.
Proof.
  intros Hshort. induction batch as [| doc rest IH]; intros validIndex f Hle Hskip.
  - simpl in Hskip. apply skipn_nil_length in Hskip. lia.
  - destruct (nonBlank doc) eqn:Hdoc.
    + destruct (nonBlank_string _ Hdoc) as [s ->].
      rewrite stringsOf_valid_cons in Hskip by exact Hdoc.
      apply skipn_cons_nth in Hskip. destruct Hskip as [Hnth Hskip].
      cbn [mapBack reach]. rewrite Hdoc.
      destruct (nth_error data validIndex) as [item | ] eqn:Hitem.
      * assert (Hlt : validIndex < length data)
          by (apply nth_error_Some; congruence).
        replace (length data - validIndex) with (S (length data - S validIndex)) by lia.
        rewrite push_grown.
        destruct (IH (S validIndex) (grown f [embedding item] []) ltac:(lia) Hskip)
          as [pre [Hrun [Hlen Hall]]].
        exists (embedding item :: pre). rewrite Hrun, grown_grown.
        split; [reflexivity | ]. split; [simpl; now rewrite Hlen | ].
        cbn [firstn]. constructor; [ | exact Hall].
        unfold mapped. rewrite Hdoc. exists s, validIndex, item. now repeat split.
      * apply nth_error_None in Hitem.
        replace (length data - validIndex) with 0 by lia.
        exists []. rewrite grown_nil. split; [reflexivity | ].
        split; [reflexivity | constructor].
    + rewrite stringsOf_valid_skip in Hskip by exact Hdoc.
      cbn [mapBack reach]. rewrite Hdoc, push_grown.
      destruct (IH validIndex (grown f [emptyEmbedding] []) Hle Hskip)
        as [pre [Hrun [Hlen Hall]]].
      exists (emptyEmbedding :: pre). rewrite Hrun, grown_grown.
      split; [reflexivity | ]. split; [simpl; now rewrite Hlen | ].
      cbn [firstn]. constructor; [ | exact Hall].
      unfold mapped. now rewrite Hdoc.
Qed.

(** X6.  When the batched request of a chunk resolves with fewer
    elements than it submitted strings, the entries pushed for the
    documents before the first unanswered one are kept, and the fallback
    then adds one aligned entry per document of the whole chunk: the
    chunk adds more entries than it has documents whenever any was
    pushed, and the entry of its [j]-th document then sits later than
    position [j]. *)
Theorem short_answer_keeps_pushed_entries
    (client : OpenAIEmbeddings) (model : string) (encodingFormat : EncodingFormat)
    (batch : list Document) (f : Frame) (data : list EmbeddingItem) :
  let submitted := stringsOf (filter nonBlank batch) in
  embeddingWithRetry client (length (called (world f)))
    (batched model encodingFormat batch) = Resolved data ->
  length data < length submitted ->
  exists pre post new,
    processBatch client model encodingFormat batch f = grown f (pre ++ post) new
    /\ length pre = reach (length data) batch
    /\ Forall2 (mapped submitted data) (firstn (reach (length data) batch) batch) pre
    /\ length post = length batch
    /\ Forall2 (aligned new) batch post.
Proof.
  intros submitted Hr Hshort. unfold processBatch.
  destruct (filter nonBlank batch) as [| d valid] eqn:Hvalid;
    [simpl in Hshort; lia | ].
  rewrite doEmbeddingWithRetry_logged. rewrite <- Hvalid.
  fold (batched model encodingFormat batch). rewrite Hr.
  set (f1 := {| results := results f; world := logged (world f) _ |}).
  assert (Hf1 : f1 = grown f [] [(batched model encodingFormat batch, Resolved data)])
    by (unfold f1, grown; now rewrite app_nil_r).
  clearbody f1.
  destruct (mapBack_short submitted data batch Hshort 0 f1 ltac:(lia))
    as [pre [Hrun [Hlen Hall]]]; [unfold submitted; now rewrite Hvalid | ].
  rewrite Nat.sub_0_r in Hlen, Hall. rewrite Hrun.
  destruct (embedIndividually_aligned client model encodingFormat batch (grown f1 pre []))
    as [post [new [Hfall Hpost]]].
  exists pre, post, ((batched model encodingFormat batch, Resolved data) :: new).
  rewrite Hfall, Hf1, !grown_grown. simpl.
  split; [reflexivity | ]. split; [exact Hlen | ]. split; [exact Hall | ].
  split; [symmetry; eapply Forall2_length; exact Hpost | ].
  eapply Forall2_aligned_incl; [ | exact Hpost]. apply incl_tl, incl_refl.
Qed.

Lemma short_answer_keeps_pushed_entries_witness :
  exists pre post new,
    processBatch (truncating echo) "nomic-embed-text" Float
      [Some "a"; Some ""; Some "b"] {| results := []; world := emptyWorld |}
    = grown {| results := []; world := emptyWorld |} (pre ++ post) new
    /\ length pre = reach 1 [Some "a"; Some ""; Some "b"]
    /\ Forall2 (mapped ["a"; "b"] [ {| index := 0; embedding := echo "a" |} ])
               (firstn (reach 1 [Some "a"; Some ""; Some "b"])
                       [Some "a"; Some ""; Some "b"]) pre
    /\ length post = 3
    /\ Forall2 (aligned new) [Some "a"; Some ""; Some "b"] post.
Proof.
  apply (short_answer_keeps_pushed_entries (truncating echo) "nomic-embed-text" Float
           [Some "a"; Some ""; Some "b"] {| results := []; world := emptyWorld |}
           [ {| index := 0; embedding := echo "a" |} ]).
  - reflexivity.
  - simpl. lia.
Defined.

(** X7.  When every request is answered with the embedding of each
    submitted text, the entry of a run at the position of a non-blank
    document is what [embedQuery] returns for that document. *)
Theorem embedDocuments_entries_are_embedQuery
    (client : OpenAIEmbeddings) (baseUrl : string) (credentials : Credentials.t)
    (model : string) (encodingFormat : EncodingFormat) (batchSize : Z)
    (emb : string -> Embedding) (fuel : nat) (documents : list Document) (w : World) :
  documents <> [] -> (1 <= batchSize)%Z ->
  construct client (clientFields baseUrl credentials model) = None ->
  answersWith emb client ->
  length documents < fuel ->
  exists result w',
    embedDocuments client baseUrl credentials model encodingFormat batchSize
      fuel (Some documents) w = (Returned result, w')
    /\ forall i s w'',
         nth_error documents i = Some (Some s) -> nonBlank (Some s) = true ->
         exists e,
           nth_error result i = Some e
           /\ fst (embedQuery client baseUrl credentials model encodingFormat
                     (Some s) w'') = Returned e.
Proof.
  intros Hne HB Hctor Hans Hfuel.
  rewrite embedDocuments_fold by assumption. cbv zeta.
  destruct (batches_answered client model encodingFormat emb
              (batches batchSize documents) Hans {| results := []; world := w |})
    as [new [Hrun _]].
  rewrite Hrun. eexists. eexists. split; [reflexivity | ].
  intros i s w'' Hi Hs. exists (emb s). split.
  - cbn [grown results app]. unfold batches. rewrite concat_chunks by lia.
    rewrite nth_error_map, Hi. cbn [option_map]. unfold expected. now rewrite Hs.
  - rewrite embedQuery_nonBlank by exact Hs. rewrite Hctor. cbv zeta. cbn [fst].
    destruct (Hans (length (called w'')) (request model encodingFormat (Single s)))
      as [data [-> Hdata]].
    destruct data as [| item rest]; [discriminate | ].
    simpl in Hdata. injection Hdata as He _. now rewrite He.
Qed.

Lemma embedDocuments_entries_are_embedQuery_witness :
  exists result w',
    embedDocuments (answering echo) "http://localhost:1234/v1" localCredentials
      "nomic-embed-text" Float 2 4 (Some [Some "a"; Some ""; Some "b"]) emptyWorld
    = (Returned result, w')
    /\ forall i s w'',
         nth_error [Some "a"; Some ""; Some "b"] i = Some (Some s) ->
         nonBlank (Some s) = true ->
         exists e,
           nth_error result i = Some e
           /\ fst (embedQuery (answering echo) "http://localhost:1234/v1" localCredentials
                     "nomic-embed-text" Float (Some s) w'') = Returned e.
Proof.
  apply (embedDocuments_entries_are_embedQuery (answering echo)
           "http://localhost:1234/v1" localCredentials "nomic-embed-text" Float 2 echo 4
           [Some "a"; Some ""; Some "b"] emptyWorld).
  - discriminate.
  - lia.
  - reflexivity.
  - apply answering_answers.
  - simpl. lia.
Defined.


(* ================================================================= *)
(** ** Further properties of [embedQuery] *)

(** X8.  [embedQuery] returns a value exactly when the text is not
    blank, the client constructor returns, and the one request is
    answered with an element at index 0; in every case it issues no
    [fetch] and at most one request. *)
Theorem embedQuery_returns_iff
    (client : OpenAIEmbeddings) (baseUrl : string) (credentials : Credentials.t)
    (model : string) (encodingFormat : EncodingFormat)
    (text : Document) (w : World) :
  let out := embedQuery client baseUrl credentials model encodingFormat text w in
  ((exists e, fst out = Returned e)
   <-> exists s item rest,
         text = Some s /\ nonBlank (Some s) = true
         /\ construct client (clientFields baseUrl credentials model) = None
         /\ embeddingWithRetry client (length (called w))
              (request model encodingFormat (Single s)) = Resolved (item :: rest))
  /\ fetched (snd out) = fetched w
  /\ (called (snd out) = called w
      \/ exists s response,
           text = Some s
           /\ called (snd out)
              = called w ++ [(request model encodingFormat (Single s), response)]).
Proof.
  cbv zeta. destruct (nonBlank text) eqn:Hb.
  - destruct (nonBlank_string _ Hb) as [s ->].
    rewrite embedQuery_nonBlank by exact Hb.
    destruct (construct client (clientFields baseUrl credentials model)) as [e | ] eqn:Hc.
    + split; [ | split; [reflexivity | now left]]. split.
      * intros [x Hx]. discriminate.
      * intros [s' [item [rest [_ [_ [Habs _]]]]]]. discriminate.
    + cbv zeta. cbn [fst snd]. split; [ | split; [reflexivity | ]].
      * split.
        -- intros [x Hx]. exists s.
           destruct (embeddingWithRetry client (length (called w))
                       (request model encodingFormat (Single s)))
             as [[| item rest] | e]; try discriminate.
           exists item, rest. now repeat split.
        -- intros [s' [item [rest [Hs [_ [_ Hr]]]]]]. injection Hs as <-.
           rewrite Hr. eexists. reflexivity.
      * right. exists s. eexists. split; reflexivity.
  - rewrite embedQuery_blank by exact Hb. cbn [fst snd].
    split; [ | split; [reflexivity | now left]]. split.
    + intros [x Hx]. discriminate.
    + intros [s [item [rest [-> [Hs _]]]]]. congruence.
Qed.

(** X9.  Once the text has passed the guard, whatever the constructor
    or the request throws is raised again as an [Error] whose message is
    "Error generating embedding: " followed by the message of the cause
    ("Unknown error" for a value that is no [Error]); an answer without
    an element is raised the same way. *)
Theorem embedQuery_wraps_failures
    (client : OpenAIEmbeddings) (baseUrl : string) (credentials : Credentials.t)
    (model : string) (encodingFormat : EncodingFormat) (s : string) (w : World) :
  nonBlank (Some s) = true ->
  let out := embedQuery client baseUrl credentials model encodingFormat (Some s) w in
  let response :=
    embeddingWithRetry client (length (called w))
      (request model encodingFormat (Single s)) in
  (forall e, construct client (clientFields baseUrl credentials model) = Some e ->
     fst out = Raised (JS.Error ("Error generating embedding: " ++ JS.messageOf e)%string))
  /\ (construct client (clientFields baseUrl credentials model) = None ->
      (forall e, response = Rejected e ->
         fst out
         = Raised (JS.Error ("Error generating embedding: " ++ JS.messageOf e)%string))
      /\ (response = Resolved [] ->
          fst out
          = Raised (JS.Error "Error generating embedding: Cannot read properties of undefined (reading 'embedding')")))
  /\ forall e, fst out = Raised e ->
       exists cause,
         e = JS.Error ("Error generating embedding: " ++ cause)%string.
Proof.
  intros Hs. cbv zeta. rewrite embedQuery_nonBlank by exact Hs.
  destruct (construct client (clientFields baseUrl credentials model)) as [e0 | ].
  - split; [ | split].
    + intros e He. injection He as <-. reflexivity.
    + discriminate.
    + intros e He. cbn [fst] in He. injection He as <-. eexists. reflexivity.
  - cbv zeta. cbn [fst]. split; [discriminate | split].
    + intros _. split.
      * intros e ->. reflexivity.
      * intros ->. reflexivity.
    + intros e He.
      destruct (embeddingWithRetry client (length (called w))
                  (request model encodingFormat (Single s))) as [[| item rest] | e'];
        try discriminate; injection He as <-; eexists; reflexivity.
Qed.

Lemma embedQuery_wraps_failures_witness :
  fst (embedQuery rejecting "http://localhost:1234/v1" localCredentials
         "nomic-embed-text" Float (Some "hello") emptyWorld)
  = Raised (JS.Error "Error generating embedding: Connection error.").
Proof.
  apply (proj1 (proj1 (proj2 (embedQuery_wraps_failures rejecting
                                "http://localhost:1234/v1" localCredentials
                                "nomic-embed-text" Float "hello" emptyWorld eq_refl))
                  eq_refl) (JS.Error "Connection error.") eq_refl).
Defined.

(** X13.  For a base URL without backslashes, the older [embedQuery]
    and the newer one issue the same requests and return the same
    values; where the older one raises what was thrown, the newer one
    raises the same error for a blank text and the wrapped one
    otherwise. *)
Theorem embedQuery_variants_agree
    (client : OpenAIEmbeddings) (credentials : Credentials.t)
    (model : string) (encodingFormat : EncodingFormat) (text : Document) (w : World) :
  JS.replaceBackslashes (Credentials.baseUrl credentials) = Credentials.baseUrl credentials ->
  let older := Older.embedQuery client credentials model encodingFormat text w in
  let newer :=
    embedQuery client (JS.replaceBackslashes (Credentials.baseUrl credentials))
      credentials model encodingFormat text w in
  snd older = snd newer
  /\ (forall e, fst older = Returned e <-> fst newer = Returned e)
  /\ (forall e, fst older = Raised e ->
        (nonBlank text = false /\ fst newer = Raised e)
        \/ (nonBlank text = true
            /\ fst newer
               = Raised (JS.Error ("Error generating embedding: "
                                   ++ JS.messageOf e)%string))).
Proof.
  intros Hurl. cbv zeta. rewrite Hurl.
  unfold Older.embedQuery, embedQuery.
  destruct text as [s | ].
  - rewrite <- negb_andb.
    change (JS.truthy s && JS.truthy (JS.trim s)) with (nonBlank (Some s)).
    destruct (nonBlank (Some s)) eqn:Hs; cbn [negb].
    + destruct (construct client
                  (clientFields (Credentials.baseUrl credentials) credentials model))
        as [e0 | ].
      * cbn [fst snd]. split; [reflexivity | split].
        -- intros e. split; discriminate.
        -- intros e He. injection He as <-. right. now split.
      * rewrite doEmbeddingWithRetry_logged.
        destruct (embeddingWithRetry client (length (called w))
                    (request model encodingFormat (Single s))) as [[| item rest] | e0];
          cbn [fst snd nth_error]; (split; [reflexivity | split]);
          try (intros e; split; intros He; (discriminate || exact He));
          try (intros e He; discriminate);
          intros e He; injection He as <-; right; now split.
    + cbn [fst snd]. split; [reflexivity | split].
      * intros e. split; discriminate.
      * intros e He. left. now split.
  - cbn [fst snd]. split; [reflexivity | split].
    + intros e. split; discriminate.
    + intros e He. left. now split.
Qed.

Lemma embedQuery_variants_agree_witness :
  snd (Older.embedQuery (answering echo) localCredentials "nomic-embed-text" Float
         (Some "hello") emptyWorld)
  = snd (embedQuery (answering echo)
           (JS.replaceBackslashes (Credentials.baseUrl localCredentials))
           localCredentials "nomic-embed-text" Float (Some "hello") emptyWorld)
  /\ (fst (Older.embedQuery (answering echo) localCredentials "nomic-embed-text" Float
             (Some "hello") emptyWorld) = Returned (echo "hello")
      <-> fst (embedQuery (answering echo)
                 (JS.replaceBackslashes (Credentials.baseUrl localCredentials))
                 localCredentials "nomic-embed-text" Float (Some "hello") emptyWorld)
          = Returned (echo "hello")).
Proof.
  destruct (embedQuery_variants_agree (answering echo) localCredentials
              "nomic-embed-text" Float (Some "hello") emptyWorld eq_refl)
    as [Hw [Hret _]].
  split; [exact Hw | exact (Hret (echo "hello"))].
Defined.

(* ================================================================= *)
(** ** Further properties of the model list *)

Lemma replaceBackslashes_clean (s : string) :
  ~ In "\"%char (list_ascii_of_string (JS.replaceBackslashes s)).
Proof.
  induction s as [| c r IH]; simpl; [exact (fun H => H) | ].
  intros [H | H]; [ | exact (IH H)].
  destruct (Ascii.eqb c "\"%char) eqn:Hc; [discriminate | ].
  apply Ascii.eqb_neq in Hc. congruence.
Qed.

Lemma replaceBackslashes_fixed (s : string) :
  JS.replaceBackslashes s = s <-> ~ In "\"%char (list_ascii_of_string s).
Proof.
  induction s as [| c r IH]; simpl; [split; [intros _ H; exact H | reflexivity] | ].
  destruct (Ascii.eqb c "\"%char) eqn:Hc.
  - apply Ascii.eqb_eq in Hc. subst c. split.
    + intros H. discriminate.
    + intros H. exfalso. apply H. now left.
  - apply Ascii.eqb_neq in Hc. split.
    + intros H [Habs | Hin]; [congruence | ].
      injection H as H. now apply IH in H.
    + intros H. f_equal. apply IH. intros Hin. apply H. now right.
Qed.

(** X12.  The normalisation of the base URL leaves no backslash, keeps
    the length, changes nothing in a URL that has none, and changes
    nothing when applied again. *)
Theorem replaceBackslashes_normalises (url : string) :
  ~ In "\"%char (list_ascii_of_string (JS.replaceBackslashes url))
  /\ String.length (JS.replaceBackslashes url) = String.length url
  /\ (JS.replaceBackslashes url = url <-> ~ In "\"%char (list_ascii_of_string url))
  /\ JS.replaceBackslashes (JS.replaceBackslashes url) = JS.replaceBackslashes url.
Proof.
  split; [apply replaceBackslashes_clean | ]. split; [ | split].
  - induction url as [| c r IH]; simpl; [reflexivity | now rewrite IH].
  - apply replaceBackslashes_fixed.
  - apply replaceBackslashes_fixed, replaceBackslashes_clean.
Qed.

Lemma loadModels_outcomes (net : Network) (url : string)
    (credentials : Credentials.t) (w : World) :
  let out := loadModels net url credentials w in
  snd out = {| fetched := fetched w ++ [(url, getInit credentials)]; called := called w |}
  /\ ((exists options, fst out = Returned options)
      <-> exists response body,
            net url (getInit credentials) = Fulfilled response
            /\ ok response = true /\ json response = inr body)
  /\ (forall options, fst out = Returned options ->
        exists response body,
          net url (getInit credentials) = Fulfilled response
          /\ json response = inr body
          /\ options
             = map (fun m => {| name := id m; value := id m |})
                 (match data body with Some entries => entries | None => [] end))
  /\ (forall e, fst out = Raised e ->
        exists cause,
          e = JS.Error ("Error fetching models from LM Studio: " ++ cause)%string)
  /\ fst out <> Diverged.
Proof.
  cbv zeta. unfold loadModels, doFetch.
  destruct (net url (getInit credentials)) as [response | e0] eqn:Hnet.
  - destruct (ok response) eqn:Hok; cbn [negb].
    + destruct (json response) as [e0 | body] eqn:Hjson; cbn [fst snd].
      * split; [reflexivity | ]. split; [ | split; [ | split]].
        -- split; [intros [o Ho]; discriminate | ].
           intros [r [b [Hr [_ Hb]]]]. injection Hr as <-. congruence.
        -- intros o Ho. discriminate.
        -- intros e He. injection He as <-. eexists. reflexivity.
        -- discriminate.
      * split; [reflexivity | ]. split; [ | split; [ | split]].
        -- split; [intros _; now exists response, body | ].
           intros _. eexists. reflexivity.
        -- intros o Ho. injection Ho as <-. now exists response, body.
        -- intros e He. discriminate.
        -- discriminate.
    + cbn [fst snd]. split; [reflexivity | ]. split; [ | split; [ | split]].
      * split; [intros [o Ho]; discriminate | ].
        intros [r [b [Hr [Hokr _]]]]. injection Hr as <-. congruence.
      * intros o Ho. discriminate.
      * intros e He. injection He as <-. eexists. reflexivity.
      * discriminate.
  - cbn [fst snd]. split; [reflexivity | ]. split; [ | split; [ | split]].
    + split; [intros [o Ho]; discriminate | ].
      intros [r [b [Hr _]]]. discriminate.
    + intros o Ho. discriminate.
    + intros e He. injection He as <-. eexists. reflexivity.
    + discriminate.
Qed.

(** X10.  [getModels] issues exactly one GET, whatever comes of it, and
    no embeddings request.  It returns a list exactly when the response
    has a success status and a body that parses: the list then holds one
    option per entry of [data], none when the body has no [data].
    Otherwise it raises an [Error] whose message starts with
    "Error fetching models from LM Studio: ": there is no partial list. *)
Theorem getModels_all_or_nothing
    (net : Network) (credentials : Credentials.t) (w : World) :
  let url := (JS.replaceBackslashes (Credentials.baseUrl credentials) ++ "/models")%string in
  let out := getModels net credentials w in
  method (getInit credentials) = "GET"
  /\ snd out
     = {| fetched := fetched w ++ [(url, getInit credentials)]; called := called w |}
  /\ ((exists options, fst out = Returned options)
      <-> exists response body,
            net url (getInit credentials) = Fulfilled response
            /\ ok response = true /\ json response = inr body)
  /\ (forall options, fst out = Returned options ->
        exists response body,
          net url (getInit credentials) = Fulfilled response
          /\ json response = inr body
          /\ options
             = map (fun m => {| name := id m; value := id m |})
                 (match data body with Some entries => entries | None => [] end))
  /\ (forall e, fst out = Raised e ->
        exists cause,
          e = JS.Error ("Error fetching models from LM Studio: " ++ cause)%string)
  /\ fst out <> Diverged.
Proof.
  cbv zeta. split; [reflexivity | ]. unfold getModels.
  apply (loadModels_outcomes net
           (JS.replaceBackslashes (Credentials.baseUrl credentials) ++ "/models")%string
           credentials w).
Qed.

(** X11.  The two variants of [getModels] send the same headers; they
    fetch the same URL, and then end the same way, when the base URL has
    no backslash; with a backslash in it, the older variant fetches the
    URL as written and the newer one the normalised URL. *)
Theorem getModels_variants_agree
    (net : Network) (credentials : Credentials.t) (w : World) :
  let base := Credentials.baseUrl credentials in
  fetched (snd (getModels net credentials w))
  = fetched w ++ [((JS.replaceBackslashes base ++ "/models")%string, getInit credentials)]
  /\ fetched (snd (Plain.getModels net credentials w))
     = fetched w ++ [((base ++ "/models")%string, getInit credentials)]
  /\ (~ In "\"%char (list_ascii_of_string base) ->
      getModels net credentials w = Plain.getModels net credentials w).
Proof.
  cbv zeta. unfold getModels, Plain.getModels.
  split; [ | split].
  - now rewrite (proj1 (loadModels_outcomes net _ credentials w)).
  - now rewrite (proj1 (loadModels_outcomes net _ credentials w)).
  - intros H. apply replaceBackslashes_fixed in H. now rewrite H.
Qed.

Lemma getModels_variants_agree_witness :
  getModels listingAB localCredentials emptyWorld
  = Plain.getModels listingAB localCredentials emptyWorld
  /\ map fst (fetched (snd (getModels listingAB windowsCredentials emptyWorld)))
     = ["http://localhost:1234/v1/models"]
  /\ map fst (fetched (snd (Plain.getModels listingAB windowsCredentials emptyWorld)))
     = ["http:\\localhost:1234\v1/models"].
Proof.
  destruct (getModels_variants_agree listingAB windowsCredentials emptyWorld)
    as [Hnew [Hold _]].
  split; [ | split].
  - apply (proj2 (proj2 (getModels_variants_agree listingAB localCredentials emptyWorld))).
    apply replaceBackslashes_fixed. reflexivity.
  - rewrite Hnew. reflexivity.
  - rewrite Hold. reflexivity.
Defined.


(* ================================================================= *)
(** ** The direct-output variant: one item *)

Lemma direct_guard (input : string) :
  negb (JS.truthy input) || (String.length (JS.trim input) =? 0)
  = negb (nonBlank (Some input)).
Proof.
  simpl. rewrite negb_andb. f_equal. now destruct (JS.trim input).
Qed.

Lemma tryItem_blank (client : Direct.Client) (host : Direct.Host)
    (credentials : Credentials.t) (p : Direct.Parameters.t) (w : Direct.World) :
  nonBlank (Direct.Parameters.input p) = false ->
  Direct.tryItem client host credentials p w
  = (inl (Direct.nodeOperationError "Input text is required"), w).
Proof.
  intros Hb. unfold Direct.tryItem.
  destruct (Direct.Parameters.input p) as [input | ]; [ | reflexivity].
  now rewrite direct_guard, Hb.
Qed.

Lemma tryItem_nonBlank (client : Direct.Client) (host : Direct.Host)
    (credentials : Credentials.t) (p : Direct.Parameters.t) (w : Direct.World)
    (input : string) :
  Direct.Parameters.input p = Some input -> nonBlank (Some input) = true ->
  Direct.tryItem client host credentials p w
  = let w0 := {| Direct.built := Direct.built w ++ [Direct.fieldsOf credentials p];
                 Direct.sent := Direct.sent w |} in
    match Direct.construct client (Direct.fieldsOf credentials p) with
    | Some e => (inl e, w0)
    | None =>
        let texts :=
          match Direct.Parameters.processingMode p with
          | Direct.MultipleTexts => Direct.TextList (Direct.textsOf host input)
          | Direct.SingleText => Direct.Text (JS.trim input)
          end in
        let response :=
          Direct.embeddingWithRetry client (length (Direct.sent w))
            (Direct.requestOf p texts) in
        let w1 := {| Direct.built := Direct.built w ++ [Direct.fieldsOf credentials p];
                     Direct.sent := Direct.sent w ++ [(Direct.requestOf p texts, response)] |} in
        match response with
        | Direct.Rejected e => (inl e, w1)
        | Direct.Resolved data =>
            match Direct.Parameters.processingMode p with
            | Direct.MultipleTexts =>
                (inr (Direct.outputOf p texts (Direct.Several (map embedding data))), w1)
            | Direct.SingleText =>
                match data with
                | item :: _ =>
                    (inr (Direct.outputOf p texts (Direct.One (embedding item))), w1)
                | [] =>
                    (inl (Direct.typeError
                            "Cannot read properties of undefined (reading 'embedding')"), w1)
                end
            end
        end
    end.
Proof.
  intros Hin Hb. unfold Direct.tryItem. rewrite Hin, direct_guard, Hb. cbn [negb].
  cbv zeta.
  destruct (Direct.construct client (Direct.fieldsOf credentials p)); [reflexivity | ].
  unfold Direct.send. cbn [Direct.sent Direct.built].
  destruct (Direct.Parameters.processingMode p).
  - destruct (Direct.embeddingWithRetry client (length (Direct.sent w))
                (Direct.requestOf p (Direct.Text (JS.trim input))))
      as [[| item rest] | e]; reflexivity.
  - destruct (Direct.embeddingWithRetry client (length (Direct.sent w))
                (Direct.requestOf p (Direct.TextList (Direct.textsOf host input))));
      reflexivity.
Qed.

Lemma openAIApiKey_filled (credentials : Credentials.t) :
  openAIApiKey credentials <> EmptyString.
Proof.
  unfold openAIApiKey.
  destruct (Credentials.apiKey credentials) as [[| c key] | ]; simpl; discriminate.
Qed.

Lemma spreadDimensions_clean (dimensions : option Z) :
  Direct.spreadDimensions dimensions <> Some 0%Z.
Proof.
  unfold Direct.spreadDimensions, Direct.truthyNumber.
  destruct dimensions as [n | ]; [ | discriminate].
  destruct (Z.eqb_spec n 0); simpl; [discriminate | congruence].
Qed.

Lemma spreadUser_clean (user : string) : Direct.spreadUser user <> Some EmptyString.
Proof. unfold Direct.spreadUser. destruct user; simpl; discriminate. Qed.

Lemma trim_nonBlank (input : string) :
  nonBlank (Some input) = true -> JS.trim input <> EmptyString.
Proof. intros Hb Ht. apply nonBlank_false_trim in Ht. congruence. Qed.

(** What one item adds to the world. *)
Lemma tryItem_effects (client : Direct.Client) (host : Direct.Host)
    (credentials : Credentials.t) (p : Direct.Parameters.t) (w : Direct.World) :
  exists b s,
    snd (Direct.tryItem client host credentials p w)
    = {| Direct.built := Direct.built w ++ b; Direct.sent := Direct.sent w ++ s |}
    /\ length s <= length b <= 1
    /\ Forall (cleanFields credentials) b
    /\ (Direct.Parameters.processingMode p = Direct.SingleText ->
        Forall cleanRequest (map fst s))
    /\ Forall (fun req => Direct.Request.dimensions req <> Some 0%Z
                          /\ Direct.Request.user req <> Some EmptyString
                          /\ Direct.Request.model req = Direct.Parameters.model p
                          /\ Direct.Request.encoding_format req
                             = Direct.Parameters.encodingFormat p)
              (map fst s).
Proof.
  destruct (nonBlank (Direct.Parameters.input p)) eqn:Hb.
  - destruct (nonBlank_string _ Hb) as [input Hin]. rewrite Hin in Hb.
    rewrite (tryItem_nonBlank client host credentials p w input Hin Hb). cbv zeta.
    assert (Hf : cleanFields credentials (Direct.fieldsOf credentials p)).
    { split; [apply openAIApiKey_filled | ]. split; [reflexivity | ].
      apply spreadDimensions_clean. }
    destruct (Direct.construct client (Direct.fieldsOf credentials p)).
    + exists [Direct.fieldsOf credentials p], []. cbn [snd]. rewrite app_nil_r.
      split; [reflexivity | ]. split; [simpl; lia | ].
      split; [now constructor | ]. split; [intros _; constructor | constructor].
    + set (texts := match Direct.Parameters.processingMode p with
                    | Direct.MultipleTexts => Direct.TextList (Direct.textsOf host input)
                    | Direct.SingleText => Direct.Text (JS.trim input)
                    end).
      set (r := Direct.embeddingWithRetry client _ _).
      exists [Direct.fieldsOf credentials p], [(Direct.requestOf p texts, r)].
      split.
      { destruct r as [data | e]; [ | reflexivity].
        destruct (Direct.Parameters.processingMode p); [ | reflexivity].
        destruct data; reflexivity. }
      split; [simpl; lia | ]. split; [now constructor | ]. split.
      * intros Hmode. constructor; [ | constructor]. unfold cleanRequest. simpl.
        split; [apply spreadDimensions_clean | ]. split; [apply spreadUser_clean | ].
        unfold texts. rewrite Hmode. intros H. injection H as H.
        exact (trim_nonBlank input Hb H).
      * constructor; [ | constructor]. simpl.
        split; [apply spreadDimensions_clean | ]. split; [apply spreadUser_clean | ].
        now split.
  - rewrite tryItem_blank by exact Hb. exists [], []. cbn [snd].
    rewrite !app_nil_r. destruct w. split; [reflexivity | ].
    split; [simpl; lia | ]. split; [constructor | ].
    split; [intros _; constructor | constructor].
Qed.



(* ================================================================= *)
(** ** The direct-output variant: the loop over the items *)

Section ExecuteFacts.
Variable client : Direct.Client.
Variable host : Direct.Host.
Variable credentials : Credentials.t.

Let from := Direct.executeFrom client host credentials.
Let try := Direct.tryItem client host credentials.

Lemma executeFrom_effects (items : list Direct.Parameters.t) :
  forall (i : nat) (acc : list Direct.ExecutionData) (w : Direct.World),
    exists b s,
      snd (from i items acc w)
      = {| Direct.built := Direct.built w ++ b; Direct.sent := Direct.sent w ++ s |}
      /\ length s <= length b <= length (filter filled items)
      /\ Forall (cleanFields credentials) b
      /\ Forall tidyRequest (map fst s).
Proof.
  induction items as [| p rest IH]; intros i acc w.
  - exists [], []. unfold from. simpl. rewrite !app_nil_r. destruct w.
    split; [reflexivity | ]. split; [simpl; lia | ]. split; constructor.
  - assert (Hone : exists b1 s1,
               snd (try p w)
               = {| Direct.built := Direct.built w ++ b1; Direct.sent := Direct.sent w ++ s1 |}
               /\ length s1 <= length b1 <= (if filled p then 1 else 0)
               /\ Forall (cleanFields credentials) b1
               /\ Forall tidyRequest (map fst s1)).
    { unfold try, filled. destruct (nonBlank (Direct.Parameters.input p)) eqn:Hb.
      - destruct (tryItem_effects client host credentials p w)
          as [b1 [s1 [Hw [Hlen [Hb1 [_ Hs1]]]]]].
        exists b1, s1. split; [exact Hw | ]. split; [exact Hlen | ].
        split; [exact Hb1 | ].
        eapply Forall_impl; [ | exact Hs1]. intros req [H1 [H2 _]]. now split.
      - rewrite tryItem_blank by exact Hb. exists [], []. cbn [snd].
        rewrite !app_nil_r. destruct w. split; [reflexivity | ].
        split; [simpl; lia | ]. split; constructor. }
    destruct Hone as [b1 [s1 [Hw [Hlen [Hb1 Ht1]]]]].
    assert (Hfilter : length (filter filled (p :: rest))
                      = (if filled p then 1 else 0) + length (filter filled rest)).
    { simpl. now destruct (filled p). }
    rewrite Hfilter.
    unfold from. cbn [Direct.executeFrom]. fold from. fold try.
    destruct (try p w) as [[e | json] w1] eqn:Htry; cbn [snd] in Hw; subst w1.
    + destruct (Direct.continueOnFail host).
      * destruct (IH (S i) (acc ++ [Direct.ErrorOutput (Direct.errorText e)
                                      (Direct.errorType e) i])
                    {| Direct.built := Direct.built w ++ b1;
                       Direct.sent := Direct.sent w ++ s1 |})
          as [b2 [s2 [Hw2 [Hlen2 [Hb2 Hs2]]]]].
        exists (b1 ++ b2), (s1 ++ s2). rewrite Hw2. cbn [Direct.built Direct.sent].
        rewrite <- !app_assoc. split; [reflexivity | ].
        rewrite !length_app, map_app. split; [lia | ].
        split; now apply Forall_app.
      * exists b1, s1. cbn [snd]. split; [reflexivity | ].
        split; [lia | ]. now split.
    + destruct (IH (S i) (acc ++ [Direct.Output json])
                  {| Direct.built := Direct.built w ++ b1;
                     Direct.sent := Direct.sent w ++ s1 |})
        as [b2 [s2 [Hw2 [Hlen2 [Hb2 Hs2]]]]].
      exists (b1 ++ b2), (s1 ++ s2). rewrite Hw2. cbn [Direct.built Direct.sent].
      rewrite <- !app_assoc. split; [reflexivity | ].
      rewrite !length_app, map_app. split; [lia | ].
      split; now apply Forall_app.
Qed.

Lemma executeFrom_continues (items : list Direct.Parameters.t) :
  Direct.continueOnFail host = true ->
  forall (i : nat) (acc : list Direct.ExecutionData) (w : Direct.World),
    exists records,
      fst (from i items acc w) = Direct.Done (acc ++ records)
      /\ length records = length items
      /\ forall k p,
           nth_error items k = Some p ->
           exists wk, nth_error records k = Some (Direct.recordOf (i + k) (fst (try p wk))).
Proof.
  intros Hcontinue. induction items as [| p rest IH]; intros i acc w.
  - exists []. unfold from. simpl. rewrite app_nil_r.
    split; [reflexivity | ]. split; [reflexivity | ]. intros [| k] q H; discriminate.
  - unfold from. cbn [Direct.executeFrom]. fold from. fold try. rewrite Hcontinue.
    assert (Hstep : from i (p :: rest) acc w
                    = from (S i) rest (acc ++ [Direct.recordOf i (fst (try p w))])
                        (snd (try p w))).
    { unfold from. cbn [Direct.executeFrom]. fold try. rewrite Hcontinue.
      destruct (try p w) as [[e | json] w1]; reflexivity. }
    fold (from i (p :: rest) acc w) in Hstep.
    destruct (IH (S i) (acc ++ [Direct.recordOf i (fst (try p w))]) (snd (try p w)))
      as [records [Hrun [Hlen Hnth]]].
    exists (Direct.recordOf i (fst (try p w)) :: records).
    replace (match try p w with
             | (inl error, w1) =>
                 from (S i) rest
                   (acc ++ [Direct.ErrorOutput (Direct.errorText error)
                              (Direct.errorType error) i]) w1
             | (inr json, w1) => from (S i) rest (acc ++ [Direct.Output json]) w1
             end)
      with (from (S i) rest (acc ++ [Direct.recordOf i (fst (try p w))]) (snd (try p w)))
      by (destruct (try p w) as [[e | json] w1]; reflexivity).
    rewrite Hrun, <- app_assoc. split; [reflexivity | ].
    split; [simpl; now rewrite Hlen | ].
    intros [| k] q Hq; simpl in Hq.
    + injection Hq as <-. exists w. now rewrite Nat.add_0_r.
    + destruct (Hnth k q Hq) as [wk Hk]. exists wk. simpl.
      now rewrite Nat.add_succ_r.
Qed.

Lemma executeFrom_aborts (items : list Direct.Parameters.t) :
  Direct.continueOnFail host = false ->
  forall (i : nat) (acc : list Direct.ExecutionData) (w : Direct.World),
    (exists records,
        fst (from i items acc w) = Direct.Done (acc ++ records)
        /\ length records = length items
        /\ Forall isOutput records)
    \/ (exists j p wj e,
          nth_error items j = Some p
          /\ try p wj = (inl e, snd (from i items acc w))
          /\ fst (from i items acc w) = Direct.Aborted (Direct.abortMessage e) (i + j)
          /\ forall j' p',
               j' < j -> nth_error items j' = Some p' ->
               exists w' json, fst (try p' w') = inr json).
Proof.
  intros Habort. induction items as [| p rest IH]; intros i acc w.
  - left. exists []. unfold from. simpl. rewrite app_nil_r.
    split; [reflexivity | ]. split; [reflexivity | constructor].
  - unfold from. cbn [Direct.executeFrom]. fold from. fold try. rewrite Habort.
    destruct (try p w) as [[e | json] w1] eqn:Htry.
    + right. exists 0, p, w, e. cbn [fst snd]. rewrite Nat.add_0_r.
      split; [reflexivity | ]. split; [exact Htry | ]. split; [reflexivity | ].
      intros j' p' Hj. lia.
    + destruct (IH (S i) (acc ++ [Direct.Output json]) w1)
        as [[records [Hrun [Hlen Hall]]] | [j [q [wj [e [Hq [Hfail [Hrun Hbefore]]]]]]]].
      * left. exists (Direct.Output json :: records).
        rewrite Hrun, <- app_assoc. split; [reflexivity | ].
        split; [simpl; now rewrite Hlen | ]. constructor; [exact I | exact Hall].
      * right. exists (S j), q, wj, e. split; [exact Hq | ]. split; [exact Hfail | ].
        split; [rewrite Hrun; now rewrite Nat.add_succ_r | ].
        intros [| j'] p' Hj Hp'; simpl in Hp'.
        -- injection Hp' as <-. exists w, json. now rewrite Htry.
        -- apply (Hbefore j' p'); [lia | exact Hp'].
Qed.
End ExecuteFacts.

(* ================================================================= *)
(** ** The direct-output variant: the records *)

Lemma nth_error_indexed {A B : Type} (f : A -> nat -> B) (l : list A) :
  forall (a k : nat),
    nth_error (map (fun p => f (snd p) (fst p)) (combine (seq a (length l)) l)) k
    = option_map (fun x => f x (a + k)) (nth_error l k).
Proof.
  induction l as [| x l IH]; intros a k.
  - now destruct k.
  - destruct k as [| k]; simpl.
    + now rewrite Nat.add_0_r.
    + rewrite IH. now rewrite Nat.add_succ_r.
Qed.

Lemma nth_error_mapIndexed {A B : Type} (f : A -> nat -> B) (l : list A) (k : nat) :
  nth_error (Direct.mapIndexed f l) k = option_map (fun x => f x k) (nth_error l k).
Proof. unfold Direct.mapIndexed. now rewrite nth_error_indexed. Qed.

Lemma length_mapIndexed {A B : Type} (f : A -> nat -> B) (l : list A) :
  length (Direct.mapIndexed f l) = length l.
Proof.
  unfold Direct.mapIndexed. now rewrite length_map, length_combine, length_seq, Nat.min_id.
Qed.






(** X15.  When the host does not continue on failure, [execute] either
    returns one output record per item and no error record, or it stops
    at the first item whose body throws: it raises the error that names
    the index of that item, with the message built from what was
    thrown, every earlier item succeeded, and nothing is built or sent
    after the failing item. *)
Theorem execute_aborts_at_first_failure
    (client : Direct.Client) (host : Direct.Host) (credentials : Credentials.t)
    (items : list Direct.Parameters.t) (w : Direct.World) :
  Direct.continueOnFail host = false ->
  let out := Direct.execute client host credentials items w in
  (exists records,
      fst out = Direct.Done records
      /\ length records = length items
      /\ Forall isOutput records)
  \/ (exists j p wj e,
        nth_error items j = Some p
        /\ Direct.tryItem client host credentials p wj = (inl e, snd out)
        /\ fst out = Direct.Aborted (Direct.abortMessage e) j
        /\ forall j' p',
             j' < j -> nth_error items j' = Some p' ->
             exists w' json,
               fst (Direct.tryItem client host credentials p' w') = inr json).
Proof.
  intros Habort. cbv zeta.
  exact (executeFrom_aborts client host credentials items Habort 0 [] w).
Qed.

Lemma execute_aborts_at_first_failure_witness :
  fst (Direct.execute directRejecting (sampleHost false) localCredentials
         [ sampleItem Direct.SingleText Float "hello";
           sampleItem Direct.SingleText Float "world" ] Direct.emptyWorld)
  = Direct.Aborted "Request failed with status code 404: model not found" 0
  /\ length (Direct.sent
               (snd (Direct.execute directRejecting (sampleHost false) localCredentials
                       [ sampleItem Direct.SingleText Float "hello";
                         sampleItem Direct.SingleText Float "world" ] Direct.emptyWorld)))
     = 1.
Proof.
  destruct (execute_aborts_at_first_failure directRejecting (sampleHost false)
              localCredentials
              [ sampleItem Direct.SingleText Float "hello";
                sampleItem Direct.SingleText Float "world" ] Direct.emptyWorld eq_refl)
    as [[records [Hrun _]] | _].
  - discriminate Hrun.
  - split; reflexivity.
Defined.

(** X16.  When the host continues on failure, an item whose input is
    absent, empty or only white space gives, at its own position, the
    error record with the text "Input text is required", the type
    "NodeOperationError" and the index of the item. *)
Theorem execute_blank_item_record
    (client : Direct.Client) (host : Direct.Host) (credentials : Credentials.t)
    (items : list Direct.Parameters.t) (w : Direct.World)
    (k : nat) (p : Direct.Parameters.t) :
  Direct.continueOnFail host = true ->
  nth_error items k = Some p ->
  filled p = false ->
  exists records,
    fst (Direct.execute client host credentials items w) = Direct.Done records
    /\ nth_error records k
       = Some (Direct.ErrorOutput "Input text is required" "NodeOperationError" k).
Proof.
  intros Hcontinue Hp Hblank.
  destruct (executeFrom_continues client host credentials items Hcontinue 0 [] w)
    as [records [Hrun [_ Hnth]]].
  exists records. split; [exact Hrun | ].
  destruct (Hnth k p Hp) as [wk Hk]. rewrite Hk.
  rewrite tryItem_blank by exact Hblank. reflexivity.
Qed.

Lemma execute_blank_item_record_witness :
  exists records,
    fst (Direct.execute directAnswering (sampleHost true) localCredentials
           [ sampleItem Direct.SingleText Float "hello";
             sampleItem Direct.SingleText Float "   " ] Direct.emptyWorld)
    = Direct.Done records
    /\ nth_error records 1
       = Some (Direct.ErrorOutput "Input text is required" "NodeOperationError" 1).
Proof.
  exact (execute_blank_item_record directAnswering (sampleHost true) localCredentials
           [ sampleItem Direct.SingleText Float "hello";
             sampleItem Direct.SingleText Float "   " ] Direct.emptyWorld
           1 (sampleItem Direct.SingleText Float "   ") eq_refl eq_refl eq_refl).
Defined.

(** X17.  Whatever the client and the host do, [execute] only adds to
    what was built and sent: at most one client for each item whose
    input passes the guard and none for the others, and at most one
    request for each client.  No client gets an empty API key, another
    base URL than the credential's, or a [dimensions] of zero; no
    request carries a [dimensions] of zero or an empty [user]. *)
Theorem execute_budget
    (client : Direct.Client) (host : Direct.Host) (credentials : Credentials.t)
    (items : list Direct.Parameters.t) (w : Direct.World) :
  exists b s,
    snd (Direct.execute client host credentials items w)
    = {| Direct.built := Direct.built w ++ b; Direct.sent := Direct.sent w ++ s |}
    /\ length s <= length b <= length (filter filled items)
    /\ length (filter filled items) <= length items
    /\ Forall (cleanFields credentials) b
    /\ Forall tidyRequest (map fst s).
Proof.
  destruct (executeFrom_effects client host credentials items 0 [] w)
    as [b [s [Hw [Hlen [Hb Hs]]]]].
  exists b, s. split; [exact Hw | ]. split; [exact Hlen | ].
  split; [apply filter_length_le | ]. now split.
Qed.

(** X18.  In the single mode, when the client is constructed and the
    answer starts with an entry whose embedding is an array of numbers,
    the item sends one request whose input is the trimmed text and its
    record holds one data entry per number of the vector, numbered by
    position, not one entry with the vector; with the float format the
    dimensions field is the text "unknown" for a vector that is not
    empty, and 0 for the empty one. *)
Theorem single_mode_splits_the_vector
    (client : Direct.Client) (host : Direct.Host) (credentials : Credentials.t)
    (p : Direct.Parameters.t) (w : Direct.World)
    (input : string) (item : EmbeddingItem) (rest : list EmbeddingItem) (v : list float) :
  Direct.Parameters.input p = Some input ->
  nonBlank (Some input) = true ->
  Direct.Parameters.processingMode p = Direct.SingleText ->
  Direct.construct client (Direct.fieldsOf credentials p) = None ->
  Direct.embeddingWithRetry client (length (Direct.sent w))
    (Direct.requestOf p (Direct.Text (JS.trim input)))
  = Direct.Resolved (item :: rest) ->
  embedding item = Vector v ->
  exists json,
    Direct.tryItem client host credentials p w
    = (inr json,
       {| Direct.built := Direct.built w ++ [Direct.fieldsOf credentials p];
          Direct.sent := Direct.sent w
                         ++ [(Direct.requestOf p (Direct.Text (JS.trim input)),
                              Direct.Resolved (item :: rest))] |})
    /\ Direct.Json.input_text json = Direct.Text (JS.trim input)
    /\ length (Direct.Json.data json) = length v
    /\ (forall k x,
          nth_error v k = Some x ->
          nth_error (Direct.Json.data json) k
          = Some {| Direct.DataItem.object := "embedding";
                    Direct.DataItem.index := k;
                    Direct.DataItem.embedding := Direct.Component x |})
    /\ (Direct.Parameters.encodingFormat p = Float ->
        Direct.Json.embedding_dimensions json
        = match v with
          | [] => Direct.Count 0
          | _ :: _ => Direct.Label "unknown"
          end).
Proof.
  intros Hin Hb Hmode Hbuilt Hanswer Hvector.
  rewrite (tryItem_nonBlank client host credentials p w input Hin Hb). cbv zeta.
  rewrite Hbuilt, Hmode, Hanswer. eexists. split; [reflexivity | ].
  cbn [Direct.outputOf Direct.Json.input_text Direct.Json.data
         Direct.Json.embedding_dimensions].
  rewrite Hvector. cbn [Direct.processedData].
  split; [reflexivity | ]. split; [apply length_mapIndexed | ]. split.
  - intros k x Hk. now rewrite nth_error_mapIndexed, Hk.
  - intros ->. now destruct v.
Qed.

Lemma single_mode_splits_the_vector_witness :
  exists json,
    fst (Direct.tryItem directAnswering (sampleHost false) localCredentials
           (sampleItem Direct.SingleText Float " hello ") Direct.emptyWorld)
    = inr json
    /\ Direct.Json.input_text json = Direct.Text "hello"
    /\ length (Direct.Json.data json) = 2
    /\ Direct.Json.embedding_dimensions json = Direct.Label "unknown".
Proof.
  destruct (single_mode_splits_the_vector directAnswering (sampleHost false)
              localCredentials (sampleItem Direct.SingleText Float " hello ")
              Direct.emptyWorld " hello "
              {| index := 7; embedding := Vector [0.5%float; 0.25%float] |} []
              [0.5%float; 0.25%float] eq_refl eq_refl eq_refl eq_refl eq_refl eq_refl)
    as [json [Hrun [Htext [Hlen [_ Hdim]]]]].
  exists json. split; [now rewrite Hrun | ]. split; [exact Htext | ].
  split; [exact Hlen | exact (Hdim eq_refl)].
Defined.

(** X19.  In the multiple mode, when the client is constructed and the
    request is answered, the item sends one request whose input is the
    array the input text parses to, or the trimmed text alone when it
    parses to no array; its record holds one data entry per entry of
    the answer, in the order of the answer and numbered by position
    whatever index the server gave, each with the whole embedding. *)
Theorem multiple_mode_numbers_by_position
    (client : Direct.Client) (host : Direct.Host) (credentials : Credentials.t)
    (p : Direct.Parameters.t) (w : Direct.World)
    (input : string) (data : list EmbeddingItem) :
  Direct.Parameters.input p = Some input ->
  nonBlank (Some input) = true ->
  Direct.Parameters.processingMode p = Direct.MultipleTexts ->
  Direct.construct client (Direct.fieldsOf credentials p) = None ->
  Direct.embeddingWithRetry client (length (Direct.sent w))
    (Direct.requestOf p (Direct.TextList (Direct.textsOf host input)))
  = Direct.Resolved data ->
  exists json,
    Direct.tryItem client host credentials p w
    = (inr json,
       {| Direct.built := Direct.built w ++ [Direct.fieldsOf credentials p];
          Direct.sent := Direct.sent w
                         ++ [(Direct.requestOf p (Direct.TextList (Direct.textsOf host input)),
                              Direct.Resolved data)] |})
    /\ Direct.Json.input_text json = Direct.TextList (Direct.textsOf host input)
    /\ length (Direct.Json.data json) = length data
    /\ (forall k item,
          nth_error data k = Some item ->
          nth_error (Direct.Json.data json) k
          = Some {| Direct.DataItem.object := "embedding";
                    Direct.DataItem.index := k;
                    Direct.DataItem.embedding := Direct.Whole (embedding item) |})
    /\ ((forall elements, Direct.parse host input <> Some (Direct.JArray elements)) ->
        Direct.textsOf host input = [Direct.JString (JS.trim input)])
    /\ (forall elements,
          Direct.parse host input = Some (Direct.JArray elements) ->
          Direct.textsOf host input = elements).
Proof.
  intros Hin Hb Hmode Hbuilt Hanswer.
  rewrite (tryItem_nonBlank client host credentials p w input Hin Hb). cbv zeta.
  rewrite Hbuilt, Hmode, Hanswer. eexists. split; [reflexivity | ].
  cbn [Direct.outputOf Direct.Json.input_text Direct.Json.data Direct.processedData].
  split; [reflexivity | ].
  split; [now rewrite length_mapIndexed, length_map | ]. split; [ | split].
  - intros k item Hk. now rewrite nth_error_mapIndexed, nth_error_map, Hk.
  - intros Hnone. unfold Direct.textsOf.
    destruct (Direct.parse host input) as [[| | | | elements |] |]; try reflexivity.
    now destruct (Hnone elements).
  - intros elements Hsome. unfold Direct.textsOf. now rewrite Hsome.
Qed.

Lemma multiple_mode_numbers_by_position_witness :
  exists json,
    fst (Direct.tryItem directAnswering (sampleHost false) localCredentials
           (sampleItem Direct.MultipleTexts Float "[1,2]") Direct.emptyWorld)
    = inr json
    /\ map Direct.DataItem.index (Direct.Json.data json) = [0; 1]
    /\ Direct.Json.input_text json
       = Direct.TextList [Direct.JNumber 1%float; Direct.JNumber 2%float].
Proof.
  destruct (multiple_mode_numbers_by_position directAnswering (sampleHost false)
              localCredentials (sampleItem Direct.MultipleTexts Float "[1,2]")
              Direct.emptyWorld "[1,2]"
              [ {| index := 7; embedding := Vector [0.5%float; 0.25%float] |};
                {| index := 7; embedding := Vector [0.5%float; 0.25%float] |} ]
              eq_refl eq_refl eq_refl eq_refl eq_refl)
    as [json [Hrun [Htext [_ [Hnth _]]]]].
  exists json. split; [now rewrite Hrun | ]. split; [ | exact Htext].
  injection Hrun as <-. reflexivity.
Defined.

(* ================================================================= *)
(** ** A listing without [data] *)

Example getModels_without_data :
  getModels listingNothing localCredentials emptyWorld
  = (Returned [],
     {| fetched := [("http://localhost:1234/v1/models", getInit localCredentials)];
        called := [] |}).
Proof. reflexivity. Qed.


(* ================================================================= *)
(** ** Batched answers that resolve short *)

(** C2.  The documents a, b, c, d with batch size 2, on a server that
    answers the batched request of a and b with the embedding of a
    alone, answers a and b on their own, and then goes down.  The
    missing element makes line 217 throw inside the [try] of the chunk
    after the entry of a was pushed; the [catch] keeps that entry and
    the fallback pushes a and b again.  Every request that carries c or
    d is rejected, yet the run returns five entries for four documents:
    the position of c holds the embedding of b, and the empty lists sit
    at positions 3 and 4.  On a server that answers the first chunk in
    full before it goes down, the same documents give the empty list at
    the positions of c and d. *)
Theorem short_answer_misplaces_placeholders :
  let documents := [Some "a"; Some "b"; Some "c"; Some "d"] in
  let run client :=
    embedDocuments client "http://localhost:1234/v1" localCredentials
      "nomic-embed-text" Float 2 5 (Some documents) emptyWorld in
  let req := request "nomic-embed-text" Float in
  let answer s := Resolved [ {| index := 0; embedding := echo s |} ] in
  let down := Rejected (JS.Error "Connection error.") in
  fst (run (failingAfter 3 (truncating echo)))
  = Returned [echo "a"; echo "a"; echo "b"; emptyEmbedding; emptyEmbedding]
  /\ called (snd (run (failingAfter 3 (truncating echo))))
     = [ (req (Many ["a"; "b"]), answer "a");
         (req (Single "a"), answer "a");
         (req (Single "b"), answer "b");
         (req (Many ["c"; "d"]), down);
         (req (Single "c"), down);
         (req (Single "d"), down) ]
  /\ fst (run (failingAfter 1 (answering echo)))
     = Returned [echo "a"; echo "b"; emptyEmbedding; emptyEmbedding].
Proof. cbv zeta. repeat split. Qed.

(** C4.  The chunk of a, the empty string and b, on a server that
    answers the batched request of a and b with the embedding of a
    alone and answers a and b on their own.  The batched request fails
    inside the [try] of the chunk, at the missing element, after the
    entries of a and of the empty string were pushed; every request of
    the fallback succeeds.  The chunk then adds five entries: those
    two, and the three of the fallback.  A batched request answered in
    full adds three, and so does a rejected batched request followed by
    the same fallback. *)
Theorem short_answer_fallback_differs :
  let batch := [Some "a"; Some ""; Some "b"] in
  let after client :=
    processBatch client "nomic-embed-text" Float batch
      {| results := []; world := emptyWorld |} in
  let req := request "nomic-embed-text" Float in
  let answer s := Resolved [ {| index := 0; embedding := echo s |} ] in
  results (after (truncating echo))
  = [echo "a"; emptyEmbedding; echo "a"; emptyEmbedding; echo "b"]
  /\ called (world (after (truncating echo)))
     = [ (req (Many ["a"; "b"]), answer "a");
         (req (Single "a"), answer "a");
         (req (Single "b"), answer "b") ]
  /\ results (after (answering echo)) = [echo "a"; emptyEmbedding; echo "b"]
  /\ results (after (batchRejecting echo)) = [echo "a"; emptyEmbedding; echo "b"]
  /\ fst (embedDocuments (truncating echo) "http://localhost:1234/v1" localCredentials
            "nomic-embed-text" Float 3 2 (Some batch) emptyWorld)
     = Returned [echo "a"; emptyEmbedding; echo "a"; emptyEmbedding; echo "b"].
Proof. cbv zeta. repeat split. Qed.
